(** * NPC chat pipeline ([npc_chat.py]): a shallow embedding and its properties

    The Python module keeps, for every player, a mood and a window of the
    last messages, sorts a batch of messages by timestamp and answers each
    one.  This file embeds the functions of the module as Rocq functions and
    proves the properties of the design document about them.

    Modelling conventions.
    - A Python [str] is a [string]; its characters are the code points
      below 256, on which [str.lower] and [str.strip] are given exactly as
      Python defines them.
    - Moods are the strings ["neutral"], ["friendly"] and ["angry"], as in
      the source; [update_mood] and [rule_based_reply] accept any string.
    - [player_states] is a finite map from player identifiers to
      [PlayerState] records.
    - [datetime.fromisoformat] and the chat-completion client are library
      code: they are parameters of the functions that call them.
    - The file system is part of the world a run works in: it decides
      whether the directory of the log file can be made and the file
      opened; paths are POSIX paths. *)

From Stdlib Require Import ZArith NArith Bool Ascii String List Lia Sorted.
From stdpp Require Import gmap strings list fin_maps.

Import ListNotations.
Local Open Scope string_scope.
Local Open Scope list_scope.

(** ** Python string primitives *)

Module PyStr.

(** [str.lower] on one code point below 256: the letters [A]-[Z] and the
    capital letters of the upper half (U+00C0 to U+00DE, the multiplication
    sign U+00D7 apart) move 32 places up. *)
Definition lower_char (c : ascii) : ascii :=
  let n := N_of_ascii c in
  if ((65 <=? n) && (n <=? 90))%N
     || ((192 <=? n) && (n <=? 222) && negb (n =? 215))%N
  then ascii_of_N (n + 32)
  else c.

(** [s.lower()] *)
Fixpoint lower (s : string) : string :=
  match s with
  | EmptyString => EmptyString
  | String c s' => String (lower_char c) (lower s')
  end.

(** [sub in s] *)
Fixpoint contains (sub s : string) : bool :=
  if String.prefix sub s then true
  else match s with
       | EmptyString => false
       | String _ s' => contains sub s'
       end.

(** [s.endswith(suf)] *)
Fixpoint endswith (s suf : string) : bool :=
  if String.eqb s suf then true
  else match s with
       | EmptyString => false
       | String _ s' => endswith s' suf
       end.

(** [any(w in s for w in words)] *)
Definition any_in (words : list string) (s : string) : bool :=
  existsb (fun w => contains w s) words.

(** [str.isspace] on one code point below 256. *)
Definition is_space (c : ascii) : bool :=
  let n := N_of_ascii c in
  (((9 <=? n) && (n <=? 13)) || ((28 <=? n) && (n <=? 32))
   || (n =? 133) || (n =? 160))%N.

Fixpoint lstrip (s : string) : string :=
  match s with
  | EmptyString => EmptyString
  | String c s' => if is_space c then lstrip s' else s
  end.

Fixpoint rstrip (s : string) : string :=
  match s with
  | EmptyString => EmptyString
  | String c s' =>
      match rstrip s' with
      | EmptyString => if is_space c then EmptyString else String c EmptyString
      | r => String c r
      end
  end.

(** [s.strip()] *)
Definition strip (s : string) : string := rstrip (lstrip s).

(** Whitespace only; whitespace first; whitespace last. *)
Fixpoint all_space (s : string) : bool :=
  match s with
  | EmptyString => true
  | String c s' => is_space c && all_space s'
  end.

Definition head_is_space (s : string) : bool :=
  match s with
  | EmptyString => false
  | String c _ => is_space c
  end.

Fixpoint last_is_space (s : string) : bool :=
  match s with
  | EmptyString => false
  | String c EmptyString => is_space c
  | String _ s' => last_is_space s'
  end.

(** [s.replace(old, new)] for a one-character [old]. *)
Fixpoint replace_char (old : ascii) (new s : string) : string :=
  match s with
  | EmptyString => EmptyString
  | String c s' =>
      if Ascii.eqb c old then new +:+ replace_char old new s'
      else String c (replace_char old new s')
  end.

End PyStr.

(** ** Keyword tables *)

Definition HELP_KEYWORDS : list string :=
  ["help"; "where"; "how"; "quest"; "please"; "assist"; "lost"].

Definition INSULT_KEYWORDS : list string :=
  ["stupid"; "idiot"; "useless"; "dumb"; "hate"; "shut up"].

Definition DEESCALATE_WORDS : list string := ["sorry"; "please"; "thanks"].

(** ** [update_mood] *)

Definition update_mood (text current_mood : string) : string * string :=
  let text_lower := PyStr.lower text in
  if PyStr.any_in INSULT_KEYWORDS text_lower then
    ("angry", "insult_detected")
  else if PyStr.any_in HELP_KEYWORDS text_lower
          || PyStr.endswith text_lower "?" then
    ("friendly", "help_or_question")
  else if String.eqb current_mood "angry"
          && PyStr.any_in DEESCALATE_WORDS text_lower then
    ("neutral", "deescalated")
  else
    (current_mood, "no_change").

(** ** Reply generation *)

(** [rule_based_reply]: the fallback generator. *)
Definition rule_based_reply (mood text : string) : string :=
  let text_lower := PyStr.lower text in
  if String.eqb mood "angry" then
    if PyStr.contains "sorry" text_lower then "Fine. Head east to the mill."
    else "Make it quick. East road leads to the mill."
  else if String.eqb mood "friendly" then
    if PyStr.any_in ["where"; "go"; "quest"] text_lower then
      "Follow the east road to the mill. The elder can help you!"
    else "How can I help you today?"
  else if PyStr.any_in ["where"; "go"; "quest"] text_lower then
    "East road goes to the mill. Village center is by the well."
  else "What do you need? I can offer directions or information.".

(** One turn of the chat request: [{"role": ..., "content": ...}]. *)
Record chat_message := { role : string; content : string }.

Definition nl : string := String (ascii_of_nat 10) EmptyString.

(** ["\n".join(parts)] *)
Fixpoint join_lines (parts : list string) : string :=
  match parts with
  | [] => ""
  | [p] => p
  | p :: rest => p +:+ nl +:+ join_lines rest
  end.

(** [build_messages]: the system prompt, the history when there is one,
    and the current message last. *)
Definition build_messages (npc_name mood : string) (history : list string)
    (current_text : string) : list chat_message :=
  let system_prompt :=
    "You are " +:+ npc_name +:+ ", a game NPC. Current mood: " +:+ mood +:+ "."
    +:+ nl
    +:+ "    Keep replies short (1-2 sentences). Be helpful if friendly, concise if neutral, curt if angry." in
  let messages := [ {| role := "system"; content := system_prompt |} ] in
  let messages :=
    match history with
    | [] => messages
    | _ =>
        let context :=
          "Previous messages:" +:+ nl
          +:+ join_lines (List.map (fun msg => "- " +:+ msg) history) in
        messages ++ [ {| role := "user"; content := context |} ]
    end in
  messages ++ [ {| role := "user"; content := current_text |} ].

(** The arguments of [client.chat.completions.create]; the temperature
    is the literal of the source, kept as text. *)
Record completion_request := {
  req_model : string;
  req_messages : list chat_message;
  req_max_tokens : Z;
  req_temperature : string
}.

(** The remote service, as [generate_reply] sees it.  [None] stands for
    [OPENAI_AVAILABLE and client] being false.  Otherwise the service is
    a function of the number of the call (it may answer one request
    differently each time) and of the request; it gives
    [response.choices[0].message.content], or [None] when anything
    between building the request and reading that field raises. *)
Definition remote_client : Type :=
  option (nat -> completion_request -> option string).

Definition generate_reply (client : remote_client) (call : nat)
    (npc_name mood : string) (history : list string) (text model : string)
    : string * string :=
  let fallback := (rule_based_reply mood text, "fallback") in
  match client with
  | Some create =>
      let messages := build_messages npc_name mood history text in
      match create call {| req_model := model; req_messages := messages;
                           req_max_tokens := 60; req_temperature := "0.7" |} with
      | Some response_content => (PyStr.strip response_content, "openai:" +:+ model)
      | None => fallback
      end
  | None => fallback
  end.

(** ** Timestamps *)

(** A [datetime] as the sort sees it: naive values compare by their
    wall-clock time, aware values by their UTC time (both in
    microseconds), and comparing a naive with an aware value raises
    [TypeError]. *)
Inductive datetime : Type :=
  | Naive (us : Z)
  | Aware (utc_us : Z).

(** [a < b] on datetimes; [None] is the [TypeError]. *)
Definition datetime_lt (a b : datetime) : option bool :=
  match a, b with
  | Naive x, Naive y => Some (x <? y)%Z
  | Aware x, Aware y => Some (x <? y)%Z
  | _, _ => None
  end.

(** The string handed to [datetime.fromisoformat]. *)
Definition normalize_timestamp (ts : string) : string :=
  PyStr.replace_char "Z"%char "+00:00" (PyStr.strip ts).

(** [parse_timestamp]; [fromisoformat] gives [None] where the library
    raises [ValueError]. *)
Definition parse_timestamp (fromisoformat : string -> option datetime)
    (ts : string) : option datetime :=
  fromisoformat (normalize_timestamp ts).

(** ** Messages, sessions and log entries *)

(** One element of the input array. *)
Record Message := { player_id : Z; text : string; timestamp : string }.

Record PlayerState := { mood : string; last_messages : list string }.

(** [PlayerState()] *)
Definition PlayerState_init : PlayerState :=
  {| mood := "neutral"; last_messages := [] |}.

(** The values that occur in a log entry. *)
Inductive json : Type :=
  | JInt (n : Z)
  | JStr (s : string)
  | JStrs (items : list string).

(** A log entry is a [dict] literal: its keys in the order they are
    written, which is the order [json.dumps] prints them in. *)
Definition log_entry : Type := list (string * json).

(** [l[-3:]] *)
Definition last3 {A : Type} (l : list A) : list A := drop (length l - 3) l.

(** ** Effects: exceptions and the two sinks *)

Inductive exn : Type :=
  | ValueError          (* [fromisoformat] rejects the string *)
  | TypeError           (* a naive and an aware [datetime] are compared *)
  | FileNotFoundError   (* a path that does not exist, the empty one too *)
  | OSError.            (* any other refusal of the file system *)

(** How the file system answers the two calls that prepare the log
    file: for a directory name, the exception [os.makedirs] raises on it,
    and for a path, the exception [open(path, 'w')] raises on it; [None]
    where the call succeeds. *)
Record file_system := {
  makedirs_raises : string -> option exn;
  open_raises : string -> option exn
}.

(** What a run works in and leaves behind: the lines printed so far, the
    content of the log file ([None] until the file is opened) and the
    file system.  A line is the entry that [json.dumps] serializes.  A
    write to the console or to the open log file does not fail in the
    model. *)
Record world := {
  console : list log_entry;
  log_lines : option (list log_entry);
  files : file_system
}.

(** Nothing printed, no log file, and a file system that refuses
    nothing. *)
Definition world_init : world :=
  {| console := []; log_lines := None;
     files := {| makedirs_raises := fun _ => None;
                 open_raises := fun _ => None |} |}.

Inductive outcome (A : Type) : Type :=
  | Returned (a : A)
  | Raised (e : exn).
Arguments Returned {A} a.
Arguments Raised {A} e.

Definition io (A : Type) : Type := world -> outcome A * world.

#[global] Instance io_ret : MRet io := fun A a w => (Returned a, w).

#[global] Instance io_bind : MBind io := fun A B f m w =>
  match m w with
  | (Returned a, w') => f a w'
  | (Raised e, w') => (Raised e, w')
  end.

(** A computation that touches no sink. *)
Definition lift {A : Type} (o : outcome A) : io A := fun w => (o, w).

(** [print(json.dumps(entry))] *)
Definition print (entry : log_entry) : io unit := fun w =>
  (Returned tt, {| console := console w ++ [entry]; log_lines := log_lines w;
                   files := files w |}).

(** [os.path.dirname(p)], with [/] as the separator: the part of [p] up
    to its last separator, without the separators that end it unless
    it consists of separators only. *)
Fixpoint up_to_last_sep (p : string) : string :=
  match p with
  | EmptyString => EmptyString
  | String c p' =>
      let head := up_to_last_sep p' in
      if Ascii.eqb c "/" || negb (String.eqb head "") then String c head
      else EmptyString
  end.

Fixpoint all_sep (s : string) : bool :=
  match s with
  | EmptyString => true
  | String c s' => Ascii.eqb c "/" && all_sep s'
  end.

Fixpoint rstrip_sep (s : string) : string :=
  match s with
  | EmptyString => EmptyString
  | String c s' =>
      match rstrip_sep s' with
      | EmptyString => if Ascii.eqb c "/" then EmptyString else String c EmptyString
      | r => String c r
      end
  end.

Definition dirname (p : string) : string :=
  let head := up_to_last_sep p in
  if negb (String.eqb head "") && negb (all_sep head) then rstrip_sep head
  else head.

(** [os.makedirs(name, exist_ok=True)]: the empty name is refused with
    [FileNotFoundError] on every file system. *)
Definition makedirs (name : string) : io unit := fun w =>
  if String.eqb name "" then (Raised FileNotFoundError, w)
  else match makedirs_raises (files w) name with
       | Some e => (Raised e, w)
       | None => (Returned tt, w)
       end.

(** [open(log_file, 'w')]: the file is created or emptied. *)
Definition open_log (log_file : string) : io unit := fun w =>
  match open_raises (files w) log_file with
  | Some e => (Raised e, w)
  | None => (Returned tt, {| console := console w; log_lines := Some [];
                             files := files w |})
  end.

(** [log_handle.write(json.dumps(entry) + '\n')] *)
Definition write_log (entry : log_entry) : io unit := fun w =>
  (Returned tt, {| console := console w;
                   log_lines := (fun lines => lines ++ [entry]) <$> log_lines w;
                   files := files w |}).

(** ** Sorting the batch *)

(** The keys of [messages.sort(key=...)], computed for every message
    before any comparison; [None] when a timestamp does not parse. *)
Fixpoint sort_keys (fromisoformat : string -> option datetime)
    (messages : list Message) : option (list (datetime * Message)) :=
  match messages with
  | [] => Some []
  | m :: rest =>
      match parse_timestamp fromisoformat (timestamp m) with
      | None => None
      | Some k => cons (k, m) <$> sort_keys fromisoformat rest
      end
  end.

(** [list.sort] is a stable sort that compares keys with [<] only.  It
    is modelled by the stable insertion sort: an element goes after the
    elements whose key is smaller and before the first one whose key is
    not.  [None] when a comparison raises. *)
Fixpoint insert_keyed (x : datetime * Message) (l : list (datetime * Message))
    : option (list (datetime * Message)) :=
  match l with
  | [] => Some [x]
  | y :: l' =>
      match datetime_lt (fst y) (fst x) with
      | None => None
      | Some true => cons y <$> insert_keyed x l'
      | Some false => Some (x :: y :: l')
      end
  end.

Fixpoint sort_keyed (l : list (datetime * Message))
    : option (list (datetime * Message)) :=
  match l with
  | [] => Some []
  | x :: l' =>
      match sort_keyed l' with
      | None => None
      | Some s => insert_keyed x s
      end
  end.

(** [messages.sort(key=lambda m: parse_timestamp(m["timestamp"]))]: the
    sorted list, or the exception the call raises. *)
Definition sort_messages (fromisoformat : string -> option datetime)
    (messages : list Message) : outcome (list Message) :=
  match sort_keys fromisoformat messages with
  | None => Raised ValueError
  | Some keyed =>
      match sort_keyed keyed with
      | None => Raised TypeError
      | Some sorted => Returned (snd <$> sorted)
      end
  end.

(** ** The processing loop *)

(** The body of the [for] loop up to the construction of the log entry:
    the session store after the message and the entry to emit.  [call]
    counts the messages processed before this one. *)
Definition process_message (client : remote_client) (model npc_name : string)
    (call : nat) (player_states : gmap Z PlayerState) (msg : Message)
    : gmap Z PlayerState * log_entry :=
  let player_id := player_id msg in
  let text := text msg in
  let timestamp := timestamp msg in
  let player_states :=
    match player_states !! player_id with
    | None => <[player_id := PlayerState_init]> player_states
    | Some _ => player_states
    end in
  let state := default PlayerState_init (player_states !! player_id) in
  let context := last3 (last_messages state) in
  let '(new_mood, reason) := update_mood text (mood state) in
  let state := {| mood := new_mood; last_messages := last_messages state |} in
  let '(reply, source) :=
    generate_reply client call npc_name (mood state) context text model in
  let appended := last_messages state ++ [text] in
  let state :=
    {| mood := mood state;
       last_messages := if (3 <? length appended)%nat then last3 appended
                        else appended |} in
  let entry : log_entry :=
    [ ("player_id", JInt player_id);
      ("timestamp", JStr timestamp);
      ("message_text", JStr text);
      ("npc_reply", JStr reply);
      ("state_used", JStrs context);
      ("npc_mood", JStr (mood state));
      ("mood_reason", JStr reason);
      ("model_source", JStr source);
      ("npc_name", JStr npc_name) ] in
  (<[player_id := state]> player_states, entry).

Fixpoint process_loop (client : remote_client) (model npc_name : string)
    (log_handle : bool) (messages : list Message)
    (player_states : gmap Z PlayerState) (call : nat)
    : io (gmap Z PlayerState) :=
  match messages with
  | [] => mret player_states
  | msg :: rest =>
      let '(player_states, entry) :=
        process_message client model npc_name call player_states msg in
      print entry;;
      (if log_handle then write_log entry else mret tt);;
      process_loop client model npc_name log_handle rest player_states (S call)
  end.

(** [process_messages], from the loaded array on.  The Python function
    returns nothing; the model returns the session store it ends with. *)
Definition process_messages (fromisoformat : string -> option datetime)
    (client : remote_client) (messages : list Message)
    (log_file model npc_name : string) : io (gmap Z PlayerState) :=
  messages ← lift (sort_messages fromisoformat messages);
  log_handle ← (if String.eqb log_file "" then mret false
                 else makedirs (dirname log_file);;
                      open_log log_file;;
                      mret true);
  process_loop client model npc_name log_handle messages ∅ 0.

(** ** A parser for one timestamp layout

    [fromisoformat] is a parameter of the pipeline.  To run the pipeline
    on concrete batches, [fromisoformat_seconds] reads the layout
    [YYYY-MM-DDTHH:MM:SS], alone (a naive value) or followed by an
    offset [+HH:MM] or [+HH:MM:SS], or the same with [-] (an aware
    value), with the library's range checks and its proleptic Gregorian
    day count.  It rejects every other string, also those other layouts
    the library accepts. *)

Definition digit (c : ascii) : option Z :=
  let n := Z.of_N (N_of_ascii c) in
  if ((48 <=? n) && (n <=? 57))%Z then Some (n - 48)%Z else None.

Definition two_digits (a b : ascii) : option Z :=
  x ← digit a; y ← digit b; Some (10 * x + y)%Z.

Definition is_leap (year : Z) : bool :=
  ((year mod 4 =? 0) && (negb (year mod 100 =? 0) || (year mod 400 =? 0)))%Z.

Definition days_in_month (year month : Z) : Z :=
  if (month =? 2)%Z then (if is_leap year then 29 else 28)%Z
  else if ((month =? 4) || (month =? 6) || (month =? 9) || (month =? 11))%Z
       then 30%Z else 31%Z.

Definition days_before_year (year : Z) : Z :=
  let y := (year - 1)%Z in (y * 365 + y / 4 - y / 100 + y / 400)%Z.

Definition days_before_month (year month : Z) : Z :=
  (nth (Z.to_nat month) [0; 0; 31; 59; 90; 120; 151; 181; 212; 243; 273; 304; 334] 0
   + (if (2 <? month) && is_leap year then 1 else 0))%Z.

Definition ymd2ord (year month day : Z) : Z :=
  (days_before_year year + days_before_month year month + day)%Z.

(** Microseconds of a wall-clock time, when the fields are in range. *)
Definition wall_clock_us (year month day hour minute second : Z) : option Z :=
  if ((1 <=? year) && (1 <=? month) && (month <=? 12) && (1 <=? day)
      && (day <=? days_in_month year month)
      && (hour <? 24) && (minute <? 60) && (second <? 60))%Z
  then Some ((((ymd2ord year month day * 24 + hour) * 60 + minute) * 60
              + second) * 1000000)%Z
  else None.

Definition parse_wall_clock (cs : list ascii) : option Z :=
  match cs with
  | [y1; y2; y3; y4; "-"; m1; m2; "-"; d1; d2; "T"; h1; h2; ":"; n1; n2; ":"; s1; s2]%char =>
      yh ← two_digits y1 y2; yl ← two_digits y3 y4;
      month ← two_digits m1 m2; day ← two_digits d1 d2;
      hour ← two_digits h1 h2; minute ← two_digits n1 n2;
      second ← two_digits s1 s2;
      wall_clock_us (100 * yh + yl) month day hour minute second
  | _ => None
  end.

(** Microseconds of an offset [+HH:MM] or [+HH:MM:SS], or of the same
    with [-]. *)
Definition offset_us (sign : ascii) (hours minutes seconds : Z) : option Z :=
  if ((hours <? 24) && (minutes <? 60) && (seconds <? 60))%Z then
    let us := (((hours * 60 + minutes) * 60 + seconds) * 1000000)%Z in
    if Ascii.eqb sign "+" then Some us
    else if Ascii.eqb sign "-" then Some (- us)%Z
    else None
  else None.

Definition parse_offset (cs : list ascii) : option Z :=
  match cs with
  | [sign; h1; h2; ":"; m1; m2]%char =>
      hours ← two_digits h1 h2; minutes ← two_digits m1 m2;
      offset_us sign hours minutes 0
  | [sign; h1; h2; ":"; m1; m2; ":"; s1; s2]%char =>
      hours ← two_digits h1 h2; minutes ← two_digits m1 m2;
      seconds ← two_digits s1 s2;
      offset_us sign hours minutes seconds
  | _ => None
  end.

Definition fromisoformat_seconds (s : string) : option datetime :=
  let cs := list_ascii_of_string s in
  local ← parse_wall_clock (take 19 cs);
  match drop 19 cs with
  | [] => Some (Naive local)
  | tz => offset ← parse_offset tz; Some (Aware (local - offset))
  end.

(** A player who sends four messages, the fourth with the text of the
    first. *)
Definition window_batch : list Message :=
  [ {| player_id := 7; text := "a"; timestamp := "2024-03-01T10:00:01" |};
    {| player_id := 7; text := "b"; timestamp := "2024-03-01T10:00:02" |};
    {| player_id := 7; text := "c"; timestamp := "2024-03-01T10:00:03" |} ].

Definition window_fourth : Message :=
  {| player_id := 7; text := "a"; timestamp := "2024-03-01T10:00:04" |}.

(** The entry printed first for [scenario_batch] when there is no remote
    service. *)
Definition scenario_first_entry : log_entry :=
  [ ("player_id", JInt 1);
    ("timestamp", JStr "2024-03-01T10:00:00Z");
    ("message_text", JStr "Where do I find the mill?");
    ("npc_reply", JStr "Follow the east road to the mill. The elder can help you!");
    ("state_used", JStrs []);
    ("npc_mood", JStr "friendly");
    ("mood_reason", JStr "help_or_question");
    ("model_source", JStr "fallback");
    ("npc_name", JStr "Elya the Ranger") ].

(** A batch with a timestamp that does not parse. *)
Definition malformed_batch : list Message :=
  [ {| player_id := 1; text := "hello"; timestamp := "2024-03-01T10:00:00Z" |};
    {| player_id := 2; text := "hi"; timestamp := "not-a-date" |} ].

(** Two players, out of order in the input; the first and the third
    message carry the same instant, written with two offsets. *)
Definition interleaved_batch : list Message :=
  [ {| player_id := 2; text := "Where is the quest?";
       timestamp := "2024-03-01T10:05:00+00:00" |};
    {| player_id := 1; text := "hello";
       timestamp := "2024-03-01T10:00:00Z" |};
    {| player_id := 1; text := "I hate this";
       timestamp := "2024-03-01T12:05:00+02:00" |} ].

(** A naive and an aware timestamp in one batch. *)
Definition mixed_batch : list Message :=
  [ {| player_id := 1; text := "hello"; timestamp := "2024-03-01T10:00:00" |};
    {| player_id := 2; text := "hi"; timestamp := "2024-03-01T10:00:00Z" |} ].

(** The player of the end-to-end scenarios and three of their messages. *)
Definition scenario_batch : list Message :=
  [ {| player_id := 1; text := "You're so stupid and useless";
       timestamp := "2024-03-01T10:05:00Z" |};
    {| player_id := 1; text := "Where do I find the mill?";
       timestamp := "2024-03-01T10:00:00Z" |};
    {| player_id := 1; text := "Sorry, please help";
       timestamp := " 2024-03-01T12:10:00+02:00 " |} ].


(** ** Reading a run *)

(** What the loop does to the store and the entries it emits, without
    the sinks. *)
Fixpoint loop_trace (client : remote_client) (model npc_name : string)
    (messages : list Message) (player_states : gmap Z PlayerState) (call : nat)
    : gmap Z PlayerState * list log_entry :=
  match messages with
  | [] => (player_states, [])
  | msg :: rest =>
      let '(player_states, entry) :=
        process_message client model npc_name call player_states msg in
      let '(final, entries) :=
        loop_trace client model npc_name rest player_states (S call) in
      (final, entry :: entries)
  end.

(** The exception that preparing the log file raises in a world, if
    any: none when no log file is asked for. *)
Definition log_failure (w : world) (log_file : string) : option exn :=
  if String.eqb log_file "" then None
  else if String.eqb (dirname log_file) "" then Some FileNotFoundError
  else match makedirs_raises (files w) (dirname log_file) with
       | Some e => Some e
       | None => open_raises (files w) log_file
       end.

(** The session of a player, as the loop body finds it. *)
Definition session (player_states : gmap Z PlayerState) (p : Z) : PlayerState :=
  default PlayerState_init (player_states !! p).

(** The append of the loop body, on the window alone. *)
Definition window_append (window : list string) (text : string) : list string :=
  let appended := window ++ [text] in
  if (3 <? length appended)%nat then last3 appended else appended.

(** The loop body on the session of the sender alone: the session after
    the message and the entry. *)
Definition message_result (client : remote_client) (model npc_name : string)
    (call : nat) (st : PlayerState) (msg : Message) : PlayerState * log_entry :=
  let new_mood := fst (update_mood (text msg) (mood st)) in
  let reason := snd (update_mood (text msg) (mood st)) in
  let snapshot := last3 (last_messages st) in
  let reply :=
    generate_reply client call npc_name new_mood snapshot (text msg) model in
  ({| mood := new_mood;
      last_messages := window_append (last_messages st) (text msg) |},
   [ ("player_id", JInt (player_id msg));
     ("timestamp", JStr (timestamp msg));
     ("message_text", JStr (text msg));
     ("npc_reply", JStr (fst reply));
     ("state_used", JStrs snapshot);
     ("npc_mood", JStr new_mood);
     ("mood_reason", JStr reason);
     ("model_source", JStr (snd reply));
     ("npc_name", JStr npc_name) ]).

(** The texts a player sent, in processing order. *)
Definition texts_of (p : Z) (messages : list Message) : list string :=
  text <$> filter (fun m => player_id m = p) messages.

(** [entry[key]] *)
Fixpoint entry_get (key : string) (entry : log_entry) : option json :=
  match entry with
  | [] => None
  | (k, v) :: rest => if String.eqb k key then Some v else entry_get key rest
  end.

(** The sort key of a message, and the order of the keys. *)
Definition instant_of (fromisoformat : string -> option datetime) (m : Message)
    : option datetime :=
  parse_timestamp fromisoformat (timestamp m).

Definition datetime_le (a b : datetime) : Prop := datetime_lt b a = Some false.

Definition keyed_le (x y : datetime * Message) : Prop :=
  datetime_le (fst x) (fst y).

#[global] Instance datetime_eq_dec : EqDecision datetime.
Proof. solve_decision. Defined.

(** The response of the remote service to the request of one call, when
    there is one. *)
Definition remote_response (client : remote_client) (call : nat)
    (npc_name mood : string) (history : list string) (text model : string)
    : option string :=
  match client with
  | Some create =>
      create call {| req_model := model;
                     req_messages := build_messages npc_name mood history text;
                     req_max_tokens := 60; req_temperature := "0.7" |}
  | None => None
  end.

(** A batch mixes kinds when a timestamp parses to a naive value and
    another one to an aware value. *)
Definition is_naive (d : datetime) : bool :=
  match d with
  | Naive _ => true
  | Aware _ => false
  end.

Definition mixed_kinds (fromisoformat : string -> option datetime)
    (messages : list Message) : Prop :=
  exists a b x y, In a messages /\ In b messages
    /\ instant_of fromisoformat a = Some (Naive x)
    /\ instant_of fromisoformat b = Some (Aware y).

(** Non-decreasing sort keys. *)
Definition instant_le (fromisoformat : string -> option datetime)
    (a b : Message) : Prop :=
  match instant_of fromisoformat a, instant_of fromisoformat b with
  | Some ka, Some kb => datetime_le ka kb
  | _, _ => False
  end.

(** The message a log entry was written for. *)
Definition entry_message (entry : log_entry) : option Message :=
  match entry_get "player_id" entry, entry_get "message_text" entry,
        entry_get "timestamp" entry with
  | Some (JInt p), Some (JStr t), Some (JStr ts) =>
      Some {| player_id := p; text := t; timestamp := ts |}
  | _, _, _ => None
  end.

(** The keys of a log entry: in the source, and in the design document. *)
Definition LOG_KEYS : list string :=
  ["player_id"; "timestamp"; "message_text"; "npc_reply"; "state_used";
   "npc_mood"; "mood_reason"; "model_source"; "npc_name"].

Definition DOCUMENTED_KEYS : list string :=
  ["player_id"; "timestamp"; "message_text"; "npc_reply"; "context_used";
   "npc_mood"; "mood_reason"; "reply_source"; "npc_name"].

(** The mood a session reaches from [m] when the mood engine reads the
    texts one after the other. *)
Definition mood_after (texts : list string) (m : string) : string :=
  fold_left (fun m t => fst (update_mood t m)) texts m.

(** The three moods the module writes. *)
Definition MOODS : list string := ["neutral"; "friendly"; "angry"].

(** What an entry says when the rule-based generator wrote its reply. *)
Definition fallback_entry (entry : log_entry) : Prop :=
  entry_get "model_source" entry = Some (JStr "fallback")
  /\ exists mood text,
       entry_get "npc_mood" entry = Some (JStr mood)
       /\ entry_get "message_text" entry = Some (JStr text)
       /\ entry_get "npc_reply" entry = Some (JStr (rule_based_reply mood text)).

(** ** The timestamp normalization of the design document *)

(** A trailing [Z] becomes [+00:00]; nothing else changes. *)
Fixpoint map_trailing_Z (s : string) : string :=
  match s with
  | EmptyString => EmptyString
  | String c EmptyString =>
      if Ascii.eqb c "Z" then "+00:00" else String c EmptyString
  | String c s' => String c (map_trailing_Z s')
  end.

Definition documented_normalize (ts : string) : string :=
  map_trailing_Z (PyStr.strip ts).

(** No [Z] before the last character. *)
Fixpoint Z_only_trailing (s : string) : bool :=
  match s with
  | EmptyString => true
  | String c EmptyString => true
  | String c s' => negb (Ascii.eqb c "Z") && Z_only_trailing s'
  end.

(** * The rules of the mood engine, as the design document words them *)

Module MoodRules.

Inductive rule : Type := Insult | HelpOrQuestion | Deescalate | NoChange.

(** The condition of a rule, read on its own. *)
Definition condition (r : rule) (current_mood text : string) : bool :=
  let text_lower := PyStr.lower text in
  match r with
  | Insult => PyStr.any_in INSULT_KEYWORDS text_lower
  | HelpOrQuestion =>
      PyStr.any_in HELP_KEYWORDS text_lower || PyStr.endswith text_lower "?"
  | Deescalate =>
      String.eqb current_mood "angry" && PyStr.any_in DEESCALATE_WORDS text_lower
  | NoChange => true
  end.

(** The rules that come before a rule in the precedence order. *)
Definition earlier (r : rule) : list rule :=
  match r with
  | Insult => []
  | HelpOrQuestion => [Insult]
  | Deescalate => [Insult; HelpOrQuestion]
  | NoChange => [Insult; HelpOrQuestion; Deescalate]
  end.

(** A rule fires when its condition holds and no earlier one does. *)
Definition fires (r : rule) (current_mood text : string) : bool :=
  condition r current_mood text
  && forallb (fun r' => negb (condition r' current_mood text)) (earlier r).

Definition result (r : rule) (current_mood : string) : string * string :=
  match r with
  | Insult => ("angry", "insult_detected")
  | HelpOrQuestion => ("friendly", "help_or_question")
  | Deescalate => ("neutral", "deescalated")
  | NoChange => (current_mood, "no_change")
  end.

End MoodRules.

(** * Properties *)

(** ** The mood engine *)

Section MoodEngine.

Import MoodRules.

Example update_mood_mill :
  update_mood "Where do I find the mill?" "neutral" = ("friendly", "help_or_question").
Proof. reflexivity. Qed.

Example update_mood_insult :
  update_mood "You're so stupid and useless" "friendly" = ("angry", "insult_detected").
Proof. reflexivity. Qed.

Example update_mood_sorry :
  update_mood "Sorry about that" "angry" = ("neutral", "deescalated").
Proof. reflexivity. Qed.

(** The source's cascade of [if]s is the first rule whose condition
    holds. *)
Lemma update_mood_cases (text current_mood : string) :
  update_mood text current_mood =
    if condition Insult current_mood text then result Insult current_mood
    else if condition HelpOrQuestion current_mood text
         then result HelpOrQuestion current_mood
    else if condition Deescalate current_mood text
         then result Deescalate current_mood
    else result NoChange current_mood.
Proof. reflexivity. Qed.

Lemma fires_unique (r1 r2 : rule) (current_mood text : string) :
  fires r1 current_mood text = true ->
  fires r2 current_mood text = true ->
  r1 = r2.
Proof.
  unfold fires.
  destruct (condition Insult current_mood text) eqn:Hi,
           (condition HelpOrQuestion current_mood text) eqn:Hh,
           (condition Deescalate current_mood text) eqn:Hd;
    destruct r1, r2; cbn [forallb earlier];
    rewrite ?Hi, ?Hh, ?Hd; cbn [negb andb condition];
    rewrite ?andb_false_r; intros; congruence.
Qed.

(** C1, as amended: with the mood angry, the text "Sorry, please help"
    makes the mood friendly with reason "help_or_question".  The insult
    rule does not fire; the help rule, which comes before de-escalation,
    does, so the de-escalation rule does not fire although its condition
    holds. *)
Theorem scenario_c_help_rule_fires :
  update_mood "Sorry, please help" "angry" = ("friendly", "help_or_question")
  /\ fires Insult "angry" "Sorry, please help" = false
  /\ fires HelpOrQuestion "angry" "Sorry, please help" = true
  /\ condition Deescalate "angry" "Sorry, please help" = true
  /\ fires Deescalate "angry" "Sorry, please help" = false.
Proof. repeat split; reflexivity. Qed.

(** C1 as stated fails: the result is not (neutral, "deescalated"). *)
Lemma scenario_c_not_deescalated :
  update_mood "Sorry, please help" "angry" <> ("neutral", "deescalated").
Proof. vm_compute. discriminate. Qed.

(** C2: for every mood and text exactly one of the four rules fires, the
    result of [update_mood] is the result of that rule, and a text with
    an insult keyword gives (angry, "insult_detected") whatever else it
    contains. *)
Theorem update_mood_one_rule (current_mood text : string) :
  (exists r : rule,
      fires r current_mood text = true
      /\ (forall r', fires r' current_mood text = true -> r' = r)
      /\ update_mood text current_mood = result r current_mood)
  /\ (PyStr.any_in INSULT_KEYWORDS (PyStr.lower text) = true ->
      update_mood text current_mood = ("angry", "insult_detected")).
Proof.
  split.
  - assert (Hex : exists r, fires r current_mood text = true
                            /\ update_mood text current_mood = result r current_mood).
    { rewrite update_mood_cases. unfold fires.
      destruct (condition Insult current_mood text) eqn:Hi.
      { exists Insult. cbn [forallb earlier]. rewrite Hi. auto. }
      destruct (condition HelpOrQuestion current_mood text) eqn:Hh.
      { exists HelpOrQuestion. cbn [forallb earlier]. rewrite Hi, Hh. auto. }
      destruct (condition Deescalate current_mood text) eqn:Hd.
      { exists Deescalate. cbn [forallb earlier].
        rewrite Hi, Hh, Hd. auto. }
      exists NoChange. cbn [forallb earlier].
      rewrite Hi, Hh, Hd. auto. }
    destruct Hex as (r & Hr & Hres).
    exists r. repeat split; trivial.
    intros r' Hr'. exact (fires_unique r' r current_mood text Hr' Hr).
  - intros Hins. unfold update_mood. rewrite Hins. reflexivity.
Qed.

Lemma update_mood_one_rule_witness :
  PyStr.any_in INSULT_KEYWORDS (PyStr.lower "Sorry, you IDIOT. Thanks.") = true
  /\ update_mood "Sorry, you IDIOT. Thanks." "angry" = ("angry", "insult_detected").
Proof.
  split; [reflexivity |].
  apply (proj2 (update_mood_one_rule "angry" "Sorry, you IDIOT. Thanks.")).
  reflexivity.
Defined.

(** C10: applying the same text again does not move the mood further. *)
Theorem update_mood_idempotent (text current_mood : string) :
  fst (update_mood text (fst (update_mood text current_mood)))
  = fst (update_mood text current_mood).
Proof.
  unfold update_mood.
  destruct (PyStr.any_in INSULT_KEYWORDS (PyStr.lower text)); [reflexivity |].
  destruct (PyStr.any_in HELP_KEYWORDS (PyStr.lower text)
            || PyStr.endswith (PyStr.lower text) "?"); [reflexivity |].
  destruct (String.eqb current_mood "angry"
            && PyStr.any_in DEESCALATE_WORDS (PyStr.lower text)) eqn:Hd.
  - reflexivity.
  - cbn [fst]. rewrite Hd. reflexivity.
Qed.

End MoodEngine.

(** ** Reply generation *)

Section ReplyStrategy.

Lemma rule_based_reply_nonempty (mood text : string) :
  rule_based_reply mood text <> "".
Proof.
  unfold rule_based_reply.
  destruct (String.eqb mood "angry"), (String.eqb mood "friendly"),
    (PyStr.contains "sorry" (PyStr.lower text)),
    (PyStr.any_in ["where"; "go"; "quest"] (PyStr.lower text)); discriminate.
Qed.

Lemma openai_tag_not_fallback (model : string) :
  "openai:" +:+ model <> "fallback".
Proof. simpl. discriminate. Qed.

Lemma generate_reply_cases (client : remote_client) (call : nat)
    (npc_name mood : string) (history : list string) (text model : string) :
  generate_reply client call npc_name mood history text model =
    match remote_response client call npc_name mood history text model with
    | Some response_content =>
        (PyStr.strip response_content, "openai:" +:+ model)
    | None => (rule_based_reply mood text, "fallback")
    end.
Proof. destruct client as [create |]; reflexivity. Qed.

(** C7: the remote service is asked first; when it is unavailable or the
    call fails the reply is the rule-based one, tagged "fallback"; the
    rule-based reply is a function of mood and text and is never empty;
    the tag is "fallback" exactly when the rule-based reply is returned
    and names the model otherwise. *)
Theorem generate_reply_fallback_policy (client : remote_client) (call : nat)
    (npc_name mood : string) (history : list string) (text model : string) :
  let reply := generate_reply client call npc_name mood history text model in
  let remote := remote_response client call npc_name mood history text model in
  (remote = None -> reply = (rule_based_reply mood text, "fallback"))
  /\ (forall response_content, remote = Some response_content ->
        reply = (PyStr.strip response_content, "openai:" +:+ model))
  /\ rule_based_reply mood text <> ""
  /\ (snd reply = "fallback" <-> remote = None).
Proof.
  cbv zeta. rewrite generate_reply_cases.
  destruct (remote_response client call npc_name mood history text model)
    as [response_content |]; cbn [snd].
  - split; [discriminate |]. split.
    { intros c Hc. injection Hc as <-. reflexivity. }
    split; [apply rule_based_reply_nonempty |]. split.
    + intros H. destruct (openai_tag_not_fallback model H).
    + discriminate.
  - split; [reflexivity |]. split; [discriminate |].
    split; [apply rule_based_reply_nonempty |]. split; reflexivity.
Qed.

Lemma generate_reply_fallback_policy_witness :
  remote_response (Some (fun _ _ => None)) 0 "Elya the Ranger" "friendly" []
      "Where do I find the mill?" "gpt-3.5-turbo" = None
  /\ generate_reply (Some (fun _ _ => None)) 0 "Elya the Ranger" "friendly" []
      "Where do I find the mill?" "gpt-3.5-turbo"
     = ("Follow the east road to the mill. The elder can help you!", "fallback").
Proof.
  split; [reflexivity |].
  apply (proj1 (generate_reply_fallback_policy (Some (fun _ _ => None)) 0
                  "Elya the Ranger" "friendly" []
                  "Where do I find the mill?" "gpt-3.5-turbo")).
  reflexivity.
Defined.

Example generate_reply_remote :
  generate_reply (Some (fun _ _ => Some " Take the east road. ")) 0
      "Elya the Ranger" "neutral" [] "hello" "gpt-3.5-turbo"
  = ("Take the east road.", "openai:gpt-3.5-turbo").
Proof. reflexivity. Qed.

(** A response whose content is blank is a success of the remote
    call: it is returned trimmed, with the model's tag. *)
Example generate_reply_blank_response :
  generate_reply (Some (fun _ _ => Some "  ")) 0
      "Elya the Ranger" "neutral" [] "hello" "gpt-3.5-turbo"
  = ("", "openai:gpt-3.5-turbo").
Proof. reflexivity. Qed.

End ReplyStrategy.

(** ** Timestamp normalization *)

Section Timestamps.

Lemma lstrip_spec (s : string) :
  exists l, s = l +:+ PyStr.lstrip s
            /\ PyStr.all_space l = true
            /\ PyStr.head_is_space (PyStr.lstrip s) = false.
Proof.
  induction s as [| c s IH].
  - exists "". auto.
  - simpl. destruct (PyStr.is_space c) eqn:Hc.
    + destruct IH as (l & Hl & Hsp & Hhd).
      exists (String c l). repeat split; trivial.
      * rewrite Hl at 1. reflexivity.
      * simpl. rewrite Hc, Hsp. reflexivity.
    + exists "". simpl. auto.
Qed.

Lemma rstrip_spec (s : string) :
  exists r, s = PyStr.rstrip s +:+ r
            /\ PyStr.all_space r = true
            /\ PyStr.last_is_space (PyStr.rstrip s) = false.
Proof.
  induction s as [| c s IH].
  - exists "". auto.
  - destruct IH as (r & Hr & Hsp & Hlast). simpl.
    destruct (PyStr.rstrip s) as [| d t] eqn:Hrs.
    + simpl in Hr. subst s. destruct (PyStr.is_space c) eqn:Hc.
      * exists (String c r). simpl. rewrite Hc, Hsp. auto.
      * exists r. simpl. auto.
    + exists r. simpl. rewrite Hr at 1. auto.
Qed.

Lemma rstrip_head (s : string) :
  PyStr.head_is_space s = false ->
  PyStr.head_is_space (PyStr.rstrip s) = false.
Proof.
  destruct s as [| c s]; [reflexivity |].
  simpl. intros Hc. destruct (PyStr.rstrip s); [rewrite Hc |]; simpl; auto.
Qed.

(** [strip] removes the whitespace around the string and nothing else. *)
Lemma strip_spec (s : string) :
  exists l r, s = l +:+ PyStr.strip s +:+ r
              /\ PyStr.all_space l = true /\ PyStr.all_space r = true
              /\ PyStr.head_is_space (PyStr.strip s) = false
              /\ PyStr.last_is_space (PyStr.strip s) = false.
Proof.
  destruct (lstrip_spec s) as (l & Hl & Hlsp & Hhd).
  destruct (rstrip_spec (PyStr.lstrip s)) as (r & Hr & Hrsp & Hlast).
  exists l, r. unfold PyStr.strip.
  split; [rewrite <- Hr; exact Hl |].
  repeat split; trivial. apply rstrip_head, Hhd.
Qed.

(** Where no [Z] stands before the last character, replacing every [Z]
    is mapping the trailing one. *)
Lemma replace_Z_only_trailing (s : string) :
  Z_only_trailing s = true ->
  PyStr.replace_char "Z" "+00:00" s = map_trailing_Z s.
Proof.
  induction s as [| c s IH]; [reflexivity |].
  destruct s as [| d t].
  - intros _. simpl. destruct (Ascii.eqb c "Z"); reflexivity.
  - intros H. change (negb (Ascii.eqb c "Z") && Z_only_trailing (String d t) = true) in H.
    apply andb_prop in H as [Hc Hrest].
    change (PyStr.replace_char "Z" "+00:00" (String c (String d t)))
      with (if Ascii.eqb c "Z"
            then "+00:00" +:+ PyStr.replace_char "Z" "+00:00" (String d t)
            else String c (PyStr.replace_char "Z" "+00:00" (String d t))).
    destruct (Ascii.eqb c "Z"); [discriminate |].
    rewrite (IH Hrest). reflexivity.
Qed.

Lemma replace_Z_unfold (c : ascii) (s : string) :
  PyStr.replace_char "Z" "+00:00" (String c s) =
    if Ascii.eqb c "Z"
    then String "+" (String "0" (String "0" (String ":" (String "0"
           (String "0" (PyStr.replace_char "Z" "+00:00" s))))))
    else String c (PyStr.replace_char "Z" "+00:00" s).
Proof. reflexivity. Qed.

(** Replacing every [Z] never gives a shorter string than mapping the
    trailing one, and gives a longer one as soon as a [Z] stands before
    the last character. *)
Lemma replace_Z_longer (s : string) :
  String.length (map_trailing_Z s)
    <= String.length (PyStr.replace_char "Z" "+00:00" s)
  /\ (Z_only_trailing s = false ->
      String.length (map_trailing_Z s)
        < String.length (PyStr.replace_char "Z" "+00:00" s)).
Proof.
  induction s as [| c s IH]; [split; [reflexivity | discriminate] |].
  destruct s as [| d t].
  - split; [| discriminate].
    rewrite replace_Z_unfold. cbn [map_trailing_Z].
    destruct (Ascii.eqb c "Z"); reflexivity.
  - destruct IH as [IHle IHlt].
    change (map_trailing_Z (String c (String d t)))
      with (String c (map_trailing_Z (String d t))).
    change (Z_only_trailing (String c (String d t)))
      with (negb (Ascii.eqb c "Z") && Z_only_trailing (String d t)).
    rewrite (replace_Z_unfold c).
    destruct (Ascii.eqb c "Z"); cbn [String.length negb andb].
    + split; [lia | intros _; lia].
    + split; [lia | intros H; specialize (IHlt H); lia].
Qed.

(** The source and the documented normalization hand the same string to
    the parser exactly for the timestamps that, once trimmed, hold no
    [Z] before their last character. *)
Lemma normalize_agrees_iff (ts : string) :
  normalize_timestamp ts = documented_normalize ts
  <-> Z_only_trailing (PyStr.strip ts) = true.
Proof.
  unfold normalize_timestamp, documented_normalize. split.
  - intros Heq. destruct (Z_only_trailing (PyStr.strip ts)) eqn:Hz; [reflexivity |].
    pose proof (proj2 (replace_Z_longer (PyStr.strip ts)) Hz) as Hlt.
    rewrite Heq in Hlt. lia.
  - apply replace_Z_only_trailing.
Qed.

(** C9, the defect: the source replaces every [Z], not the trailing one
    alone.  The timestamp "2024-01-01T12:00:00Z:30" is not a valid
    ISO-8601 timestamp after the two documented transformations, which
    leave it as it is; the source hands "2024-01-01T12:00:00+00:00:30"
    to the parser, which accepts it as noon at an offset of thirty
    seconds. *)
Theorem normalize_replaces_inner_Z :
  normalize_timestamp "2024-01-01T12:00:00Z:30" = "2024-01-01T12:00:00+00:00:30"
  /\ documented_normalize "2024-01-01T12:00:00Z:30" = "2024-01-01T12:00:00Z:30"
  /\ normalize_timestamp "2024-01-01T12:00:00Z:30"
     <> documented_normalize "2024-01-01T12:00:00Z:30"
  /\ parse_timestamp fromisoformat_seconds "2024-01-01T12:00:00Z:30"
     = Some (Aware 63839793570000000).
Proof.
  split; [reflexivity |]. split; [reflexivity |].
  split; [vm_compute; discriminate |]. vm_compute.  reflexivity.
Qed.

End Timestamps.

(** ** Sorting by timestamp *)

Section Sorting.

Implicit Types (x y : datetime * Message) (l s : list (datetime * Message)).

Lemma datetime_lt_le (a b : datetime) :
  datetime_lt a b = Some true -> datetime_le a b.
Proof.
  unfold datetime_le. destruct a, b; simpl; try discriminate;
    intros [= H]; f_equal; lia.
Qed.

Lemma datetime_lt_neq (a b : datetime) :
  datetime_lt a b = Some true -> a <> b.
Proof.
  destruct a, b; simpl; try discriminate; intros [= H] [= E]; lia.
Qed.

Lemma datetime_le_trans (a b c : datetime) :
  datetime_le a b -> datetime_le b c -> datetime_le a c.
Proof.
  unfold datetime_le. destruct a, b, c; simpl; try discriminate;
    intros [= H1] [= H2]; f_equal; lia.
Qed.

Lemma datetime_lt_kind (a b : datetime) :
  is_Some (datetime_lt a b) <-> is_naive a = is_naive b.
Proof.
  destruct a, b; simpl; split; intros H; try discriminate; eauto;
    destruct H; discriminate.
Qed.

Lemma insert_keyed_perm x l s :
  insert_keyed x l = Some s -> s ≡ₚ x :: l.
Proof.
  revert s. induction l as [| y l IH]; simpl; intros s H.
  - injection H as <-. reflexivity.
  - destruct (datetime_lt (fst y) (fst x)) as [[|] |]; try discriminate.
    + destruct (insert_keyed x l) as [s' |]; simpl in H; try discriminate.
      injection H as <-. rewrite (IH s' eq_refl). apply Permutation_swap.
    + injection H as <-. reflexivity.
Qed.

Lemma insert_keyed_sorted x l s :
  StronglySorted keyed_le l ->
  insert_keyed x l = Some s ->
  StronglySorted keyed_le s.
Proof.
  revert s. induction l as [| y l IH]; simpl; intros s Hl H.
  - injection H as <-. repeat constructor.
  - apply StronglySorted_inv in Hl as [Hl Hy].
    destruct (datetime_lt (fst y) (fst x)) as [[|] |] eqn:Hlt; try discriminate.
    + destruct (insert_keyed x l) as [s' |] eqn:Hs'; simpl in H; try discriminate.
      injection H as <-. constructor; [apply IH; trivial |].
      rewrite (insert_keyed_perm _ _ _ Hs'). constructor; trivial.
      apply datetime_lt_le, Hlt.
    + injection H as <-. constructor; [constructor; trivial |].
      constructor; [exact Hlt |].
      eapply Forall_impl; [exact Hy |]. intros z Hz.
      eapply datetime_le_trans; [exact Hlt | exact Hz].
Qed.

(** Insertion keeps the order of the elements that share a key. *)
Lemma insert_keyed_stable x l s (k : datetime) :
  insert_keyed x l = Some s ->
  filter (fun z => fst z = k) s = filter (fun z => fst z = k) (x :: l).
Proof.
  revert s. induction l as [| y l IH]; simpl; intros s H.
  - injection H as <-. reflexivity.
  - destruct (datetime_lt (fst y) (fst x)) as [[|] |] eqn:Hlt; try discriminate.
    + destruct (insert_keyed x l) as [s' |]; simpl in H; try discriminate.
      injection H as <-. apply datetime_lt_neq in Hlt.
      rewrite filter_cons, (IH s' eq_refl), !filter_cons.
      repeat case_decide; congruence.
    + injection H as <-. reflexivity.
Qed.

Lemma sort_keyed_spec l s :
  sort_keyed l = Some s ->
  s ≡ₚ l /\ StronglySorted keyed_le s
  /\ forall k, filter (fun z => fst z = k) s = filter (fun z => fst z = k) l.
Proof.
  revert s. induction l as [| x l IH]; simpl; intros s H.
  - injection H as <-. repeat split; constructor.
  - destruct (sort_keyed l) as [s' |]; try discriminate.
    destruct (IH s' eq_refl) as (Hp & Hs & Hf).
    repeat split.
    + rewrite (insert_keyed_perm _ _ _ H), Hp. reflexivity.
    + eapply insert_keyed_sorted; eauto.
    + intros k. rewrite (insert_keyed_stable _ _ _ k H), !filter_cons, Hf.
      reflexivity.
Qed.

(** The sort raises exactly when it meets a naive and an aware key. *)
Lemma insert_keyed_some x l :
  Forall (fun y => is_naive (fst y) = is_naive (fst x)) l ->
  is_Some (insert_keyed x l).
Proof.
  induction l as [| y l IH]; simpl; intros H; [eauto |].
  apply Forall_cons in H as [Hy Hl].
  apply datetime_lt_kind in Hy as [[|] ->]; [| eauto].
  destruct (IH Hl) as [s' ->]. simpl. eauto.
Qed.

Lemma sort_keyed_some l (b : bool) :
  Forall (fun y => is_naive (fst y) = b) l -> is_Some (sort_keyed l).
Proof.
  induction l as [| x l IH]; simpl; intros H; [eauto |].
  apply Forall_cons in H as [Hx Hl].
  destruct (IH Hl) as [s Hs]. rewrite Hs.
  apply insert_keyed_some.
  destruct (sort_keyed_spec _ _ Hs) as (Hp & _). rewrite Hp.
  eapply Forall_impl; [exact Hl |]. simpl. congruence.
Qed.

Lemma sort_keyed_one_kind l s :
  sort_keyed l = Some s ->
  exists b, Forall (fun y => is_naive (fst y) = b) l.
Proof.
  revert s. induction l as [| x l IH]; simpl; intros s H.
  - exists true. constructor.
  - destruct (sort_keyed l) as [s' |] eqn:Hs'; try discriminate.
    destruct (IH s' eq_refl) as [b Hb].
    destruct (sort_keyed_spec _ _ Hs') as (Hp & _).
    destruct s' as [| y s'].
    + apply Permutation_nil_l in Hp. subst l.
      exists (is_naive (fst x)). repeat constructor.
    + exists b. constructor; [| exact Hb].
      simpl in H.
      assert (Hk : is_Some (datetime_lt (fst y) (fst x))).
      { destruct (datetime_lt (fst y) (fst x)); [eauto | discriminate]. }
      apply datetime_lt_kind in Hk. rewrite <- Hk.
      rewrite <- Hp in Hb. apply Forall_cons in Hb as [Hy _]. exact Hy.
Qed.

(** The keys are computed for the messages one by one, in order. *)
Lemma sort_keys_spec (fromisoformat : string -> option datetime)
    (messages : list Message) l :
  sort_keys fromisoformat messages = Some l ->
  snd <$> l = messages
  /\ Forall (fun x => instant_of fromisoformat (snd x) = Some (fst x)) l.
Proof.
  revert l. induction messages as [| m messages IH]; simpl; intros l H.
  - injection H as <-. split; constructor.
  - fold (instant_of fromisoformat m) in H.
    destruct (instant_of fromisoformat m) as [k |] eqn:Hk; try discriminate.
    destruct (sort_keys fromisoformat messages) as [l' |]; try discriminate.
    injection H as <-. destruct (IH l' eq_refl) as [Hm Hf].
    split; [rewrite fmap_cons, Hm; reflexivity | constructor; trivial].
Qed.

Lemma sort_keys_none (fromisoformat : string -> option datetime)
    (messages : list Message) :
  sort_keys fromisoformat messages = None
  <-> exists m, In m messages /\ instant_of fromisoformat m = None.
Proof.
  induction messages as [| m messages IH]; simpl.
  - split; [discriminate | intros (m & [] & _)].
  - fold (instant_of fromisoformat m).
    destruct (instant_of fromisoformat m) as [k |] eqn:Hk.
    + destruct (sort_keys fromisoformat messages) as [l' |]; simpl.
      * split; [discriminate |]. intros (m' & [<- | Hin] & Hn); [congruence |].
        apply proj2 in IH. discriminate IH. eauto.
      * split; [| trivial]. intros _.
        destruct (proj1 IH eq_refl) as (m' & Hin & Hn). eauto.
    + split; [| trivial]. intros _. eauto.
Qed.

Lemma filter_keyed_messages (fromisoformat : string -> option datetime)
    l (k : datetime) :
  Forall (fun x => instant_of fromisoformat (snd x) = Some (fst x)) l ->
  filter (fun m => instant_of fromisoformat m = Some k) (snd <$> l)
  = snd <$> filter (fun z => fst z = k) l.
Proof.
  induction 1 as [| x l Hx Hl IH]; [reflexivity |].
  rewrite fmap_cons, !filter_cons, IH.
  repeat case_decide; try reflexivity; congruence.
Qed.

(** What [sort_messages] returns, and when. *)
Lemma sort_messages_returned (fromisoformat : string -> option datetime)
    (messages sorted : list Message) :
  sort_messages fromisoformat messages = Returned sorted ->
  sorted ≡ₚ messages
  /\ StronglySorted (instant_le fromisoformat) sorted
  /\ (forall k, filter (fun m => instant_of fromisoformat m = Some k) sorted
               = filter (fun m => instant_of fromisoformat m = Some k) messages)
  /\ ~ mixed_kinds fromisoformat messages.
Proof.
  unfold sort_messages.
  destruct (sort_keys fromisoformat messages) as [l |] eqn:Hkeys; try discriminate.
  destruct (sort_keyed l) as [s |] eqn:Hsort; try discriminate.
  intros [= <-].
  destruct (sort_keys_spec _ _ _ Hkeys) as [Hm Hinst].
  destruct (sort_keyed_spec _ _ Hsort) as (Hp & Hs & Hf).
  assert (Hinst' : Forall (fun x => instant_of fromisoformat (snd x) = Some (fst x)) s)
    by (rewrite Hp; exact Hinst).
  repeat split.
  - rewrite <- Hm, Hp. reflexivity.
  - clear Hp Hf Hsort. induction Hs as [| x s Hs IH Hx]; simpl; constructor.
    + apply IH. apply Forall_cons in Hinst' as [_ H]. exact H.
    + apply Forall_cons in Hinst' as [Hx' Hs'].
      rewrite Forall_fmap. rewrite Forall_forall in Hx, Hs' |- *.
      intros y Hy. unfold instant_le, compose.
      rewrite Hx', (Hs' y Hy). apply (Hx y Hy).
  - intros k. rewrite <- Hm, !filter_keyed_messages, Hf; trivial.
  - intros (a & b & x & y & Ha & Hb & Hx & Hy).
    destruct (sort_keyed_one_kind _ _ Hsort) as [kind Hkind].
    rewrite <- Hm in Ha, Hb.
    apply in_map_iff in Ha as (ka & <- & Hka), Hb as (kb & <- & Hkb).
    rewrite Forall_forall in Hkind, Hinst.
    apply list_elem_of_In in Hka, Hkb.
    pose proof (Hkind _ Hka) as Ea. pose proof (Hkind _ Hkb) as Eb.
    rewrite (Hinst _ Hka) in Hx. rewrite (Hinst _ Hkb) in Hy.
    injection Hx as Hx. injection Hy as Hy.
    rewrite Hx in Ea. rewrite Hy in Eb. simpl in Ea, Eb. congruence.
Qed.

Lemma sort_messages_value_error (fromisoformat : string -> option datetime)
    (messages : list Message) :
  sort_messages fromisoformat messages = Raised ValueError
  <-> exists m, In m messages /\ instant_of fromisoformat m = None.
Proof.
  rewrite <- sort_keys_none. unfold sort_messages.
  destruct (sort_keys fromisoformat messages) as [l |]; [| tauto].
  destruct (sort_keyed l); split; discriminate.
Qed.

Lemma sort_messages_raises (fromisoformat : string -> option datetime)
    (messages : list Message) (e : exn) :
  sort_messages fromisoformat messages = Raised e ->
  e = ValueError \/ e = TypeError.
Proof.
  unfold sort_messages.
  destruct (sort_keys fromisoformat messages) as [l |]; [| intros [= <-]; auto].
  destruct (sort_keyed l); [discriminate | intros [= <-]; auto].
Qed.

Lemma sort_messages_type_error (fromisoformat : string -> option datetime)
    (messages : list Message) :
  Forall (fun m => is_Some (instant_of fromisoformat m)) messages ->
  sort_messages fromisoformat messages = Raised TypeError ->
  mixed_kinds fromisoformat messages.
Proof.
  unfold sort_messages. intros Hall.
  destruct (sort_keys fromisoformat messages) as [l |] eqn:Hkeys; try discriminate.
  destruct (sort_keyed l) as [s |] eqn:Hsort; try discriminate. intros _.
  destruct (sort_keys_spec _ _ _ Hkeys) as [Hm Hinst].
  destruct (decide (Forall (fun y => is_naive (fst y) = true) l)) as [Hn | Hn].
  { destruct (sort_keyed_some _ _ Hn). congruence. }
  destruct (decide (Forall (fun y => is_naive (fst y) = false) l)) as [Ha | Ha].
  { destruct (sort_keyed_some _ _ Ha). congruence. }
  apply not_Forall_Exists in Hn; [| intros ?; apply _].
  apply not_Forall_Exists in Ha; [| intros ?; apply _].
  apply Exists_exists in Hn as (b & Hb & Hbk), Ha as (a & Ha & Hak).
  rewrite Forall_forall in Hinst.
  pose proof (Hinst _ Ha) as Hia. pose proof (Hinst _ Hb) as Hib.
  destruct a as [[x | x] ma]; simpl in *; [| congruence].
  destruct b as [[y | y] mb]; simpl in *; [congruence |].
  exists ma, mb, x, y. rewrite <- Hm.
  apply list_elem_of_In in Ha, Hb.
  repeat split; trivial.
  - apply in_map_iff. exists (Naive x, ma). auto.
  - apply in_map_iff. exists (Aware y, mb). auto.
Qed.

End Sorting.

(** ** The processing loop *)

Section Pipeline.

Context (client : remote_client) (model npc_name : string).

Local Abbreviation step := (process_message client model npc_name).
Local Abbreviation on_session := (message_result client model npc_name).
Local Abbreviation trace := (loop_trace client model npc_name).

Lemma process_message_spec (call : nat) (ps : gmap Z PlayerState) (msg : Message) :
  step call ps msg =
    (<[player_id msg :=
         fst (on_session call (session ps (player_id msg)) msg)]> ps,
     snd (on_session call (session ps (player_id msg)) msg)).
Proof.
  unfold process_message, message_result, session, window_append.
  destruct (ps !! player_id msg) as [st |] eqn:Hst.
  - rewrite Hst. cbn [from_option id mood last_messages fst snd].
    destruct (update_mood (text msg) (mood st)) as [new_mood reason].
    cbn [fst snd].
    destruct (generate_reply client call npc_name new_mood
                (last3 (last_messages st)) (text msg) model) as [reply source].
    reflexivity.
  - rewrite lookup_insert_eq. cbn [from_option id mood last_messages fst snd].
    destruct (update_mood (text msg) (mood PlayerState_init)) as [new_mood reason].
    cbn [fst snd mood last_messages PlayerState_init].
    destruct (generate_reply client call npc_name new_mood
                (last3 []) (text msg) model) as [reply source].
    rewrite insert_insert_eq. reflexivity.
Qed.

Lemma loop_trace_cons (msg : Message) (rest : list Message)
    (ps : gmap Z PlayerState) (call : nat) :
  trace (msg :: rest) ps call =
    (fst (trace rest (fst (step call ps msg)) (S call)),
     snd (step call ps msg)
       :: snd (trace rest (fst (step call ps msg)) (S call))).
Proof.
  cbn [loop_trace].
  destruct (step call ps msg) as [ps' entry]. cbn [fst snd].
  destruct (trace rest ps' (S call)) as [final entries]. reflexivity.
Qed.

Lemma loop_trace_app (l1 l2 : list Message) (ps : gmap Z PlayerState) (call : nat) :
  trace (l1 ++ l2) ps call =
    (fst (trace l2 (fst (trace l1 ps call)) (call + length l1)),
     snd (trace l1 ps call)
       ++ snd (trace l2 (fst (trace l1 ps call)) (call + length l1))).
Proof.
  revert ps call. induction l1 as [| msg l1 IH]; intros ps call.
  - cbn [app loop_trace fst snd length]. rewrite Nat.add_0_r.
    destruct (trace l2 ps call); reflexivity.
  - rewrite <- app_comm_cons, !loop_trace_cons, IH. cbn [fst snd length].
    rewrite Nat.add_succ_r. reflexivity.
Qed.

Lemma loop_trace_length (messages : list Message) (ps : gmap Z PlayerState)
    (call : nat) :
  length (snd (trace messages ps call)) = length messages.
Proof.
  revert ps call. induction messages as [| msg rest IH]; intros ps call.
  - reflexivity.
  - rewrite loop_trace_cons. cbn [snd length]. rewrite IH. reflexivity.
Qed.

(** The entry written for the message that follows [pre]. *)
Lemma loop_trace_entry (pre : list Message) (msg : Message) (post : list Message) :
  snd (trace (pre ++ msg :: post) ∅ 0) !! length pre
  = Some (snd (on_session (length pre)
                 (session (fst (trace pre ∅ 0)) (player_id msg)) msg)).
Proof.
  rewrite loop_trace_app. cbn [snd].
  rewrite lookup_app_r by (rewrite loop_trace_length; lia).
  rewrite loop_trace_length, Nat.sub_diag, loop_trace_cons.
  cbn [snd]. rewrite process_message_spec. reflexivity.
Qed.

(** The loop with its sinks: it returns, and both sinks receive the
    entries in processing order. *)
Lemma process_loop_run (log_handle : bool) (messages : list Message)
    (ps : gmap Z PlayerState) (call : nat) (w : world) :
  process_loop client model npc_name log_handle messages ps call w =
    (Returned (fst (trace messages ps call)),
     {| console := console w ++ snd (trace messages ps call);
        log_lines :=
          if log_handle
          then (fun lines => lines ++ snd (trace messages ps call))
                 <$> log_lines w
          else log_lines w;
        files := files w |}).
Proof.
  revert ps call w. induction messages as [| msg rest IH]; intros ps call w.
  - cbn [process_loop loop_trace fst snd].
    unfold mret, io_ret. rewrite app_nil_r. destruct w as [c [lines |] fs];
      destruct log_handle; cbn; rewrite ?app_nil_r; reflexivity.
  - rewrite loop_trace_cons. cbn [process_loop fst snd].
    destruct (step call ps msg) as [ps' entry]. cbn [fst snd].
    unfold mbind, io_bind, print, write_log, mret, io_ret.
    destruct log_handle; rewrite IH; cbn [console log_lines files];
      rewrite <- app_assoc; cbn [app]; try reflexivity.
    destruct (log_lines w) as [lines |]; cbn; [| reflexivity].
    rewrite <- app_assoc. reflexivity.
Qed.

(** The whole run: the exception of the sort, or the exception of the
    preparation of the log file, in both cases with the sinks untouched,
    or the loop over the sorted batch. *)
Lemma process_messages_run (fromisoformat : string -> option datetime)
    (messages : list Message) (log_file : string) (w : world) :
  process_messages fromisoformat client messages log_file model npc_name w =
    match sort_messages fromisoformat messages with
    | Raised e => (Raised e, w)
    | Returned sorted =>
        match log_failure w log_file with
        | Some e => (Raised e, w)
        | None =>
            (Returned (fst (trace sorted ∅ 0)),
             {| console := console w ++ snd (trace sorted ∅ 0);
                log_lines := if String.eqb log_file "" then log_lines w
                             else Some (snd (trace sorted ∅ 0));
                files := files w |})
        end
    end.
Proof.
  unfold process_messages, log_failure, mbind, io_bind, lift.
  destruct (sort_messages fromisoformat messages) as [sorted | e]; [| reflexivity].
  destruct (String.eqb log_file "").
  { unfold mret, io_ret. rewrite process_loop_run. reflexivity. }
  unfold makedirs, open_log, mret, io_ret.
  destruct (String.eqb (dirname log_file) ""); [reflexivity |].
  destruct (makedirs_raises (files w) (dirname log_file)); [reflexivity |].
  destruct (open_raises (files w) log_file); [reflexivity |].
  rewrite process_loop_run. reflexivity.
Qed.

(** *** The context window *)

Lemma last3_length {A : Type} (l : list A) :
  length (last3 l) = Nat.min 3 (length l).
Proof. unfold last3. rewrite length_drop. lia. Qed.

Lemma last3_suffix {A : Type} (l : list A) :
  l = take (length l - 3) l ++ last3 l.
Proof. unfold last3. rewrite take_drop. reflexivity. Qed.

Lemma last3_idem {A : Type} (l : list A) : last3 (last3 l) = last3 l.
Proof.
  unfold last3. rewrite length_drop, drop_drop. f_equal. lia.
Qed.

(** Appending to the window and cutting it to three is taking the last
    three of everything appended so far. *)
Lemma window_append_last3 (l : list string) (x : string) :
  window_append (last3 l) x = last3 (l ++ [x]).
Proof.
  unfold window_append.
  assert (Hlen : length (last3 l ++ [x]) = Nat.min 3 (length l) + 1)
    by (rewrite length_app, last3_length; reflexivity).
  destruct (Nat.ltb_spec 3 (length (last3 l ++ [x]))) as [Hlt | Hge].
  - transitivity (drop 1 (last3 l) ++ [x]).
    + unfold last3 at 1. rewrite Hlen.
      replace (Nat.min 3 (length l) + 1 - 3) with 1 by lia.
      apply drop_app_le. rewrite last3_length. lia.
    + unfold last3. rewrite drop_drop, length_app. cbn [length].
      rewrite drop_app_le by lia. do 2 f_equal. lia.
  - unfold last3. rewrite length_app. cbn [length].
    replace (length l - 3) with 0 by lia.
    replace (length l + 1 - 3) with 0 by lia. reflexivity.
Qed.

Lemma texts_of_app (p : Z) (l1 l2 : list Message) :
  texts_of p (l1 ++ l2) = texts_of p l1 ++ texts_of p l2.
Proof. unfold texts_of. rewrite filter_app, fmap_app. reflexivity. Qed.

Lemma texts_of_one (p : Z) (msg : Message) :
  texts_of p [msg] = if decide (player_id msg = p) then [text msg] else [].
Proof.
  unfold texts_of. rewrite filter_cons, filter_nil.
  case_decide; reflexivity.
Qed.

Lemma loop_trace_windows (messages : list Message) :
  forall (ps : gmap Z PlayerState) (call : nat) (h : Z -> list string),
    (forall p, last_messages (session ps p) = last3 (h p)) ->
    forall p, last_messages (session (fst (trace messages ps call)) p)
              = last3 (h p ++ texts_of p messages).
Proof.
  induction messages as [| msg rest IH]; intros ps call h Hh p.
  - cbn [loop_trace fst]. rewrite (Hh p).
    unfold texts_of. rewrite filter_nil, fmap_nil, app_nil_r. reflexivity.
  - rewrite loop_trace_cons. cbn [fst].
    change (msg :: rest) with ([msg] ++ rest).
    rewrite texts_of_app, app_assoc.
    apply (IH _ _ (fun q => h q ++ texts_of q [msg])).
    intros q. rewrite process_message_spec. cbn [fst].
    rewrite texts_of_one. unfold session at 1.
    destruct (decide (player_id msg = q)) as [<- | Hne].
    + rewrite lookup_insert_eq. cbn [from_option id].
      unfold message_result. cbn [fst last_messages].
      rewrite (Hh (player_id msg)). apply window_append_last3.
    + rewrite lookup_insert_ne by exact Hne.
      rewrite app_nil_r. apply Hh.
Qed.

(** After the loop, started on the empty store, the window of a player
    is the last three of the texts the player sent. *)
Lemma loop_windows (messages : list Message) (p : Z) :
  last_messages (session (fst (trace messages ∅ 0)) p)
  = last3 (texts_of p messages).
Proof.
  apply (loop_trace_windows messages ∅ 0 (fun _ => [])).
  intros q. unfold session. rewrite lookup_empty. reflexivity.
Qed.

(** C4: the window of a player never holds more than three texts; it is
    the last three of the texts the player sent, oldest first, so with
    three or more of them it holds exactly three; and the snapshot
    logged for a message is made of the texts of the earlier messages of
    that player alone: the text of the message itself is appended
    after the snapshot is taken. *)
Theorem context_window_last_three (log_handle : bool)
    (messages : list Message) (w : world) :
  exists ps w',
    process_loop client model npc_name log_handle messages ∅ 0 w = (Returned ps, w')
    /\ (forall p,
          let window := last_messages (session ps p) in
          length window <= 3
          /\ window = last3 (texts_of p messages)
          /\ (3 <= length (texts_of p messages) ->
              length window = 3
              /\ exists older, texts_of p messages = older ++ window))
    /\ (forall pre msg post, messages = pre ++ msg :: post ->
          exists entry,
            console w' !! (length (console w) + length pre) = Some entry
            /\ entry_get "state_used" entry
               = Some (JStrs (last3 (texts_of (player_id msg) pre)))
            /\ (forall t, In t (last3 (texts_of (player_id msg) pre)) ->
                  In t (texts_of (player_id msg) pre))).
Proof.
  eexists _, _. split; [apply process_loop_run |]. split.
  - intros p. cbv zeta. rewrite loop_windows, last3_length.
    split; [lia |]. split; [reflexivity |].
    intros Hlen. split; [lia |].
    exists (take (length (texts_of p messages) - 3) (texts_of p messages)).
    apply last3_suffix.
  - intros pre msg post ->. eexists. cbn [console]. split.
    + rewrite lookup_app_r by lia.
      replace (length (console w) + length pre - length (console w))
        with (length pre) by lia.
      apply loop_trace_entry.
    + split.
      * unfold message_result. cbn [snd].
        rewrite loop_windows, last3_idem. reflexivity.
      * intros t Ht. rewrite (last3_suffix (texts_of (player_id msg) pre)).
        apply in_or_app. right. exact Ht.
Qed.


(** *** One message *)

(** C5: for the message that follows [pre] in processing order, the mood
    engine runs on the mood the session had before the message; the new
    mood is stored; the reply is generated from the new mood and from the
    snapshot of the window taken before the text is appended; the text is
    appended after that; the logged mood is the new mood. *)
Theorem message_processing_order (log_handle : bool)
    (pre : list Message) (msg : Message) (post : list Message) (w : world) :
  exists before after final w_before w_after w_final,
    process_loop client model npc_name log_handle pre ∅ 0 w = (Returned before, w_before)
    /\ process_loop client model npc_name log_handle (pre ++ [msg]) ∅ 0 w
       = (Returned after, w_after)
    /\ process_loop client model npc_name log_handle (pre ++ msg :: post) ∅ 0 w
       = (Returned final, w_final)
    /\ let st := session before (player_id msg) in
       let new_mood := fst (update_mood (text msg) (mood st)) in
       let reason := snd (update_mood (text msg) (mood st)) in
       let snapshot := last3 (last_messages st) in
       let reply :=
         generate_reply client (length pre) npc_name new_mood snapshot
           (text msg) model in
       snapshot = last3 (texts_of (player_id msg) pre)
       /\ session after (player_id msg)
          = {| mood := new_mood;
               last_messages := window_append (last_messages st) (text msg) |}
       /\ last_messages (session after (player_id msg))
          = last3 (texts_of (player_id msg) pre ++ [text msg])
       /\ exists entry,
            console w_final !! (length (console w) + length pre) = Some entry
            /\ entry_get "npc_mood" entry = Some (JStr new_mood)
            /\ entry_get "mood_reason" entry = Some (JStr reason)
            /\ entry_get "npc_reply" entry = Some (JStr (fst reply))
            /\ entry_get "model_source" entry = Some (JStr (snd reply))
            /\ entry_get "state_used" entry = Some (JStrs snapshot).
Proof.
  eexists _, _, _, _, _, _.
  split; [apply process_loop_run |].
  split; [apply process_loop_run |].
  split; [apply process_loop_run |].
  cbv zeta. split; [| split; [| split]].
  - rewrite loop_windows, last3_idem. reflexivity.
  - rewrite loop_trace_app. cbn [fst]. rewrite loop_trace_cons. cbn [fst].
    rewrite process_message_spec. cbn [loop_trace fst].
    unfold session at 1. rewrite lookup_insert_eq. reflexivity.
  - rewrite loop_windows, texts_of_app, texts_of_one.
    rewrite decide_True by reflexivity. reflexivity.
  - eexists. cbn [console]. split.
    + rewrite lookup_app_r by lia.
      replace (length (console w) + length pre - length (console w))
        with (length pre) by lia.
      apply loop_trace_entry.
    + repeat split; reflexivity.
Qed.

(** *** The sinks *)

Lemma message_result_keys (call : nat) (st : PlayerState) (msg : Message) :
  fst <$> snd (on_session call st msg) = LOG_KEYS.
Proof. reflexivity. Qed.

Lemma message_result_message (call : nat) (st : PlayerState) (msg : Message) :
  entry_message (snd (on_session call st msg)) = Some msg.
Proof. destruct msg. reflexivity. Qed.

Lemma loop_trace_messages (messages : list Message) (ps : gmap Z PlayerState)
    (call : nat) :
  entry_message <$> snd (trace messages ps call) = Some <$> messages.
Proof.
  revert ps call. induction messages as [| msg rest IH]; intros ps call.
  - reflexivity.
  - rewrite loop_trace_cons. cbn [snd]. rewrite !fmap_cons, IH.
    rewrite process_message_spec. cbn [snd].
    rewrite message_result_message. reflexivity.
Qed.

(** C6, as amended: when the sort returns and the log file, if one is
    asked for, can be prepared, the console receives exactly one object
    per message, in processing order, and the keys of each object are
    player_id, timestamp (the original string), message_text, npc_reply,
    state_used (the snapshot taken before the append), npc_mood,
    mood_reason, model_source and npc_name.  When the log file cannot be
    prepared the run raises before the loop: no message is processed and
    nothing is printed. *)
Theorem console_one_entry_per_message
    (fromisoformat : string -> option datetime)
    (messages sorted : list Message) (log_file : string) (w : world) :
  sort_messages fromisoformat messages = Returned sorted ->
  exists r w',
    process_messages fromisoformat client messages log_file model npc_name w
      = (r, w')
    /\ (forall e, log_failure w log_file = Some e -> r = Raised e /\ w' = w)
    /\ (log_failure w log_file = None ->
        exists ps entries,
          r = Returned ps
          /\ console w' = console w ++ entries
          /\ length entries = length messages
          /\ forall i msg, sorted !! i = Some msg ->
               exists entry,
                 entries !! i = Some entry
                 /\ fst <$> entry = LOG_KEYS
                 /\ entry_get "player_id" entry = Some (JInt (player_id msg))
                 /\ entry_get "timestamp" entry = Some (JStr (timestamp msg))
                 /\ entry_get "message_text" entry = Some (JStr (text msg))
                 /\ entry_get "state_used" entry
                    = Some (JStrs (last3 (texts_of (player_id msg)
                                            (take i sorted))))
                 /\ entry_get "npc_name" entry = Some (JStr npc_name)
                 /\ (exists reply,
                       entry_get "npc_reply" entry = Some (JStr reply))
                 /\ (exists new_mood,
                       entry_get "npc_mood" entry = Some (JStr new_mood))
                 /\ (exists reason,
                       entry_get "mood_reason" entry = Some (JStr reason))
                 /\ (exists source,
                       entry_get "model_source" entry = Some (JStr source))).
Proof.
  intros Hsort. rewrite process_messages_run, Hsort.
  destruct (log_failure w log_file) as [e |].
  { eexists _, _. split; [reflexivity |]. split; [| discriminate].
    intros e' [= <-]. split; reflexivity. }
  eexists _, _. split; [reflexivity |]. split; [discriminate |]. intros _.
  eexists _, _. split; [reflexivity |].
  cbn [console]. split; [reflexivity |]. split.
  - rewrite loop_trace_length.
    apply sort_messages_returned in Hsort as (Hp & _).
    rewrite Hp. reflexivity.
  - intros i msg Hi.
    pose proof (lookup_lt_Some _ _ _ Hi) as Hlt.
    pose proof (take_drop_middle _ _ _ Hi) as Hsplit.
    assert (Hlen : length (take i sorted) = i) by (rewrite length_take; lia).
    pose proof (loop_trace_entry (take i sorted) msg (drop (S i) sorted)) as He.
    rewrite Hsplit, Hlen in He.
    eexists. split; [exact He |].
    unfold message_result. cbn [snd].
    rewrite loop_windows, last3_idem.
    repeat split; try reflexivity; eexists; reflexivity.
Qed.

(** *** Order of the emitted entries *)

(** C3: when every timestamp of the batch parses, the entries are
    emitted for the messages in non-decreasing order of their instants,
    and messages with the same instant keep the order they have in the
    input.  (Nothing is emitted in two cases: a batch that mixes naive
    and aware timestamps makes the sort raise, and a log file that
    cannot be prepared makes the run raise before the loop.) *)
Theorem emitted_in_timestamp_order
    (fromisoformat : string -> option datetime)
    (messages : list Message) (log_file : string) (w : world) :
  Forall (fun m => is_Some (instant_of fromisoformat m)) messages ->
  exists r w',
    process_messages fromisoformat client messages log_file model npc_name w
      = (r, w')
    /\ ((mixed_kinds fromisoformat messages /\ r = Raised TypeError /\ w' = w)
        \/ (~ mixed_kinds fromisoformat messages
            /\ exists e, log_failure w log_file = Some e
                         /\ r = Raised e /\ w' = w)
        \/ (~ mixed_kinds fromisoformat messages
            /\ log_failure w log_file = None
            /\ exists ps sorted entries,
                 r = Returned ps
                 /\ console w' = console w ++ entries
                 /\ entry_message <$> entries = Some <$> sorted
                 /\ sorted ≡ₚ messages
                 /\ StronglySorted (instant_le fromisoformat) sorted
                 /\ forall k,
                      filter (fun m => instant_of fromisoformat m = Some k) sorted
                      = filter (fun m => instant_of fromisoformat m = Some k)
                          messages)).
Proof.
  intros Hall. rewrite process_messages_run.
  destruct (sort_messages fromisoformat messages) as [sorted | e] eqn:Hsort.
  - destruct (sort_messages_returned _ _ _ Hsort) as (Hp & Hs & Hf & Hm).
    destruct (log_failure w log_file) as [e |].
    + eexists _, _. split; [reflexivity |]. right. left.
      split; [exact Hm |]. exists e. auto.
    + eexists _, _. split; [reflexivity |]. right. right.
      split; [exact Hm |]. split; [reflexivity |]. eexists _, sorted, _.
      split; [reflexivity |]. cbn [console]. split; [reflexivity |].
      split; [apply loop_trace_messages |]. auto.
  - eexists _, _. split; [reflexivity |]. left.
    destruct e as [| | |].
    + apply sort_messages_value_error in Hsort as (m & Hin & Hnone).
      rewrite Forall_forall in Hall.
      apply list_elem_of_In, Hall in Hin. rewrite Hnone in Hin.
      destruct Hin; discriminate.
    + auto using sort_messages_type_error.
    + destruct (sort_messages_raises _ _ _ Hsort); discriminate.
    + destruct (sort_messages_raises _ _ _ Hsort); discriminate.
Qed.

(** C8: when a timestamp of the batch does not parse, the run raises
    the parser's error and leaves both sinks as they were: nothing is
    printed, the log file is not opened, and no session store comes to
    exist. *)
Theorem malformed_timestamp_aborts
    (fromisoformat : string -> option datetime)
    (messages : list Message) (log_file : string) (w : world) :
  (exists m, In m messages /\ parse_timestamp fromisoformat (timestamp m) = None) ->
  process_messages fromisoformat client messages log_file model npc_name w
  = (Raised ValueError, w).
Proof.
  intros H. rewrite process_messages_run.
  apply sort_messages_value_error in H. rewrite H. reflexivity.
Qed.

End Pipeline.

(** ** The pipeline on concrete batches *)

Section Runs.

Lemma scenario_batch_parses :
  Forall (fun m => is_Some (instant_of fromisoformat_seconds m)) scenario_batch.
Proof.
  repeat (constructor; [eexists; reflexivity |]). constructor.
Qed.

Lemma interleaved_batch_sorted :
  sort_messages fromisoformat_seconds interleaved_batch
  = Returned
      [ {| player_id := 1; text := "hello";
           timestamp := "2024-03-01T10:00:00Z" |};
        {| player_id := 2; text := "Where is the quest?";
           timestamp := "2024-03-01T10:05:00+00:00" |};
        {| player_id := 1; text := "I hate this";
           timestamp := "2024-03-01T12:05:00+02:00" |} ].
Proof. reflexivity. Qed.

Lemma context_window_last_three_witness :
  exists ps w',
    process_loop None "gpt-3.5-turbo" "Elya the Ranger" false
      (window_batch ++ [window_fourth]) ∅ 0 world_init = (Returned ps, w')
    /\ 3 <= length (texts_of 7 (window_batch ++ [window_fourth]))
    /\ length (last_messages (session ps 7)) = 3
    /\ last_messages (session ps 7) = ["b"; "c"; "a"]
    /\ exists entry, console w' !! 3 = Some entry
         /\ entry_get "state_used" entry = Some (JStrs ["a"; "b"; "c"]).
Proof.
  destruct (context_window_last_three None "gpt-3.5-turbo" "Elya the Ranger"
              false (window_batch ++ [window_fourth]) world_init)
    as (ps & w' & Hrun & Hwin & Hsnap).
  assert (H3 : 3 <= length (texts_of 7 (window_batch ++ [window_fourth])))
    by (vm_compute; lia).
  exists ps, w'. split; [exact Hrun |]. split; [exact H3 |].
  split; [exact (proj1 (proj2 (proj2 (Hwin 7%Z)) H3)) |].
  split; [exact (proj1 (proj2 (Hwin 7%Z))) |].
  destruct (Hsnap window_batch window_fourth [] eq_refl) as (entry & He & Hs & _).
  exists entry. split; [exact He | exact Hs].
Defined.

Lemma emitted_in_timestamp_order_witness :
  Forall (fun m => is_Some (instant_of fromisoformat_seconds m)) interleaved_batch
  /\ exists r w',
       process_messages fromisoformat_seconds None interleaved_batch
         "logs/chat_log.jsonl" "gpt-3.5-turbo" "Elya the Ranger" world_init
       = (r, w').
Proof.
  assert (H : Forall (fun m => is_Some (instant_of fromisoformat_seconds m))
                interleaved_batch).
  { repeat (constructor; [eexists; reflexivity |]). constructor. }
  split; [exact H |].
  destruct (emitted_in_timestamp_order None "gpt-3.5-turbo" "Elya the Ranger"
              fromisoformat_seconds interleaved_batch "logs/chat_log.jsonl"
              world_init H)
    as (r & w' & Hrun & _).
  exists r, w'. exact Hrun.
Defined.

Lemma malformed_timestamp_aborts_witness :
  (exists m, In m malformed_batch
             /\ parse_timestamp fromisoformat_seconds (timestamp m) = None)
  /\ process_messages fromisoformat_seconds None malformed_batch
       "logs/chat_log.jsonl" "gpt-3.5-turbo" "Elya the Ranger" world_init
     = (Raised ValueError, world_init).
Proof.
  assert (H : exists m, In m malformed_batch
                /\ parse_timestamp fromisoformat_seconds (timestamp m) = None).
  { exists {| player_id := 2; text := "hi"; timestamp := "not-a-date" |}.
    split; [right; left; reflexivity | reflexivity]. }
  split; [exact H |].
  exact (malformed_timestamp_aborts None "gpt-3.5-turbo" "Elya the Ranger"
           fromisoformat_seconds malformed_batch "logs/chat_log.jsonl"
           world_init H).
Defined.

Lemma console_one_entry_per_message_witness :
  sort_messages fromisoformat_seconds interleaved_batch
  = Returned
      [ {| player_id := 1; text := "hello";
           timestamp := "2024-03-01T10:00:00Z" |};
        {| player_id := 2; text := "Where is the quest?";
           timestamp := "2024-03-01T10:05:00+00:00" |};
        {| player_id := 1; text := "I hate this";
           timestamp := "2024-03-01T12:05:00+02:00" |} ]
  /\ log_failure world_init "logs/chat_log.jsonl" = None
  /\ exists r w' ps entries,
       process_messages fromisoformat_seconds None interleaved_batch
         "logs/chat_log.jsonl" "gpt-3.5-turbo" "Elya the Ranger" world_init
       = (r, w')
       /\ r = Returned ps
       /\ console w' = console world_init ++ entries
       /\ length entries = length interleaved_batch.
Proof.
  split; [reflexivity |]. split; [reflexivity |].
  destruct (console_one_entry_per_message None "gpt-3.5-turbo" "Elya the Ranger"
              fromisoformat_seconds interleaved_batch _ "logs/chat_log.jsonl"
              world_init interleaved_batch_sorted)
    as (r & w' & Hrun & _ & Hok).
  destruct (Hok eq_refl) as (ps & entries & Hr & Hconsole & Hlen & _).
  exists r, w', ps, entries. auto.
Defined.

Example dirname_examples :
  dirname "a/b/c.txt" = "a/b" /\ dirname "/x" = "/" /\ dirname "a//b" = "a"
  /\ dirname "logs/" = "logs" /\ dirname "//a" = "//" /\ dirname "///" = "///"
  /\ dirname "" = "" /\ dirname "a/" = "a".
Proof. repeat split; reflexivity. Qed.

(** A log path without a directory part: [os.makedirs] is called on the
    empty name and raises, after the sort and before the loop. *)
Example log_path_without_directory :
  dirname "out.jsonl" = ""
  /\ dirname "logs/chat_log.jsonl" = "logs"
  /\ process_messages fromisoformat_seconds None interleaved_batch "out.jsonl"
       "gpt-3.5-turbo" "Elya the Ranger" world_init
     = (Raised FileNotFoundError, world_init).
Proof. repeat split; reflexivity. Qed.

(** C6 as stated fails: the object printed for a message has no key
    context_used and no key reply_source; its keys are not the
    documented ones. *)
Lemma console_keys_not_documented :
  exists ps w',
    process_messages fromisoformat_seconds None scenario_batch ""
      "gpt-3.5-turbo" "Elya the Ranger" world_init = (Returned ps, w')
    /\ console w' !! 0 = Some scenario_first_entry
    /\ fst <$> scenario_first_entry = LOG_KEYS
    /\ fst <$> scenario_first_entry <> DOCUMENTED_KEYS
    /\ entry_get "context_used" scenario_first_entry = None
    /\ entry_get "reply_source" scenario_first_entry = None.
Proof.
  eexists _, _. split.
  { rewrite process_messages_run. vm_compute. reflexivity. }
  repeat split; try reflexivity. discriminate.
Qed.

(** Two players out of order in the input: the entries come out in
    timestamp order, the two messages with the same instant in input
    order, and each player has their own mood and window. *)
Example interleaved_run_order :
  exists ps w',
    process_messages fromisoformat_seconds None interleaved_batch ""
      "gpt-3.5-turbo" "Elya the Ranger" world_init = (Returned ps, w')
    /\ entry_message <$> console w'
       = Some <$> [ {| player_id := 1; text := "hello";
                       timestamp := "2024-03-01T10:00:00Z" |};
                    {| player_id := 2; text := "Where is the quest?";
                       timestamp := "2024-03-01T10:05:00+00:00" |};
                    {| player_id := 1; text := "I hate this";
                       timestamp := "2024-03-01T12:05:00+02:00" |} ]
    /\ session ps 1 = {| mood := "angry"; last_messages := ["hello"; "I hate this"] |}
    /\ session ps 2 = {| mood := "friendly"; last_messages := ["Where is the quest?"] |}.
Proof.
  eexists _, _. split.
  { rewrite process_messages_run. vm_compute. reflexivity. }
  repeat split; reflexivity.
Qed.

(** The scenarios A, B and C of the design document, in one run. *)
Example scenario_run_moods :
  exists ps w',
    process_messages fromisoformat_seconds None scenario_batch ""
      "gpt-3.5-turbo" "Elya the Ranger" world_init = (Returned ps, w')
    /\ (fun e => (entry_get "npc_mood" e, entry_get "mood_reason" e))
         <$> console w'
       = [ (Some (JStr "friendly"), Some (JStr "help_or_question"));
           (Some (JStr "angry"), Some (JStr "insult_detected"));
           (Some (JStr "friendly"), Some (JStr "help_or_question")) ].
Proof.
  eexists _, _. split.
  { rewrite process_messages_run. vm_compute. reflexivity. }
  reflexivity.
Qed.

End Runs.

(** * Further properties of the module *)

(** ** Substrings *)

Section Substrings.

Lemma append_cons (c : ascii) (a b : string) :
  String c a +:+ b = String c (a +:+ b).
Proof. reflexivity. Qed.

Lemma append_empty_l (b : string) : "" +:+ b = b.
Proof. reflexivity. Qed.

Lemma append_empty_r (a : string) : a +:+ "" = a.
Proof.
  induction a as [| c a IH]; [reflexivity |].
  rewrite append_cons, IH. reflexivity.
Qed.

Lemma append_assoc (a b c : string) : (a +:+ b) +:+ c = a +:+ (b +:+ c).
Proof.
  induction a as [| x a IH]; [reflexivity |].
  rewrite !append_cons, IH. reflexivity.
Qed.

Lemma contains_unfold (sub s : string) :
  PyStr.contains sub s =
    if String.prefix sub s then true
    else match s with
         | EmptyString => false
         | String _ s' => PyStr.contains sub s'
         end.
Proof. destruct s; reflexivity. Qed.

Lemma prefix_app_l (sub s b : string) :
  String.prefix sub s = true -> String.prefix sub (s +:+ b) = true.
Proof.
  revert s. induction sub as [| x sub IH]; intros s H.
  - destruct (s +:+ b); reflexivity.
  - destruct s as [| y s]; [discriminate |].
    rewrite append_cons. simpl in H |- *.
    destruct (ascii_dec x y); [apply IH, H | discriminate].
Qed.

Lemma prefix_refl (sub : string) : String.prefix sub sub = true.
Proof.
  induction sub as [| x sub IH]; [reflexivity |].
  simpl. destruct (ascii_dec x x); [exact IH | congruence].
Qed.

Lemma contains_here (sub b : string) : PyStr.contains sub (sub +:+ b) = true.
Proof.
  rewrite contains_unfold, (prefix_app_l sub sub b (prefix_refl sub)).
  reflexivity.
Qed.

Lemma contains_skip (sub a s : string) :
  PyStr.contains sub s = true -> PyStr.contains sub (a +:+ s) = true.
Proof.
  intros H. induction a as [| c a IH]; [exact H |].
  rewrite append_cons, contains_unfold, IH.
  destruct (String.prefix sub (String c (a +:+ s))); reflexivity.
Qed.

Lemma contains_app_l (sub s b : string) :
  PyStr.contains sub s = true -> PyStr.contains sub (s +:+ b) = true.
Proof.
  induction s as [| c s IH]; intros H.
  - rewrite contains_unfold in H.
    destruct (String.prefix sub "") eqn:Hp; [| discriminate].
    rewrite contains_unfold, (prefix_app_l _ _ b Hp). reflexivity.
  - rewrite contains_unfold in H.
    rewrite append_cons, contains_unfold.
    destruct (String.prefix sub (String c s)) eqn:Hp.
    + rewrite <- append_cons, (prefix_app_l _ _ b Hp). reflexivity.
    + rewrite (IH H).
      destruct (String.prefix sub (String c (s +:+ b))); reflexivity.
Qed.

Lemma contains_middle (sub a b : string) :
  PyStr.contains sub (a +:+ sub +:+ b) = true.
Proof. apply contains_skip, contains_here. Qed.

Lemma contains_join_lines (p : string) (parts : list string) :
  In p parts -> PyStr.contains p (join_lines parts) = true.
Proof.
  induction parts as [| q parts IH]; [intros [] |].
  intros Hin. destruct parts as [| r parts].
  - destruct Hin as [<- | []]. cbn [join_lines].
    rewrite <- (append_empty_r q) at 2. apply contains_here.
  - change (join_lines (q :: r :: parts))
      with (q +:+ nl +:+ join_lines (r :: parts)).
    destruct Hin as [<- | Hin]; [apply contains_here |].
    apply contains_skip, contains_skip, IH, Hin.
Qed.

End Substrings.

(** ** The mood engine, further *)

Section MoodEngineMore.

Lemma lower_char_idem (c : ascii) :
  PyStr.lower_char (PyStr.lower_char c) = PyStr.lower_char c.
Proof.
  destruct c as [[|] [|] [|] [|] [|] [|] [|] [|]]; reflexivity.
Qed.

Lemma lower_idem (s : string) : PyStr.lower (PyStr.lower s) = PyStr.lower s.
Proof.
  induction s as [| c s IH]; [reflexivity |].
  cbn [PyStr.lower]. rewrite lower_char_idem, IH. reflexivity.
Qed.

Lemma lower_length (s : string) :
  String.length (PyStr.lower s) = String.length s.
Proof.
  induction s as [| c s IH]; [reflexivity |].
  cbn [PyStr.lower String.length]. rewrite IH. reflexivity.
Qed.

(** X1: the mood engine and the rule-based reply do not see the case of the
    text: a text and its lower-case form get the same mood, reason and
    reply. *)
Theorem mood_and_reply_ignore_case (text current_mood : string) :
  update_mood (PyStr.lower text) current_mood = update_mood text current_mood
  /\ rule_based_reply current_mood (PyStr.lower text)
     = rule_based_reply current_mood text.
Proof.
  unfold update_mood, rule_based_reply. rewrite lower_idem. split; reflexivity.
Qed.

Lemma any_in_help_false (s : string) :
  PyStr.any_in HELP_KEYWORDS s = false -> PyStr.contains "please" s = false.
Proof.
  unfold PyStr.any_in, HELP_KEYWORDS. cbn [existsb].
  rewrite !orb_false_iff. tauto.
Qed.

(** X2: de-escalation happens only from the angry mood and only on a text
    with "sorry" or "thanks" in it: "please" is a help keyword, so a text
    that holds it never de-escalates. *)
Theorem deescalation_needs_sorry_or_thanks (text current_mood : string) :
  snd (update_mood text current_mood) = "deescalated" ->
  current_mood = "angry"
  /\ fst (update_mood text current_mood) = "neutral"
  /\ PyStr.contains "please" (PyStr.lower text) = false
  /\ (PyStr.contains "sorry" (PyStr.lower text) = true
      \/ PyStr.contains "thanks" (PyStr.lower text) = true).
Proof.
  unfold update_mood.
  destruct (PyStr.any_in INSULT_KEYWORDS (PyStr.lower text)); [discriminate |].
  destruct (PyStr.any_in HELP_KEYWORDS (PyStr.lower text)) eqn:Hh;
    [discriminate |].
  destruct (PyStr.endswith (PyStr.lower text) "?"); [discriminate |].
  cbn [orb].
  destruct (String.eqb current_mood "angry") eqn:Hm; [| discriminate].
  destruct (PyStr.any_in DEESCALATE_WORDS (PyStr.lower text)) eqn:Hd;
    [| discriminate].
  intros _. apply String.eqb_eq in Hm. apply any_in_help_false in Hh.
  unfold PyStr.any_in, DEESCALATE_WORDS in Hd. cbn [existsb] in Hd.
  rewrite Hh in Hd. cbn [orb] in Hd.
  rewrite orb_false_r in Hd. apply orb_true_iff in Hd.
  repeat split; trivial.
Qed.

Lemma deescalation_needs_sorry_or_thanks_witness :
  snd (update_mood "Thanks, ranger" "angry") = "deescalated"
  /\ (PyStr.contains "sorry" (PyStr.lower "Thanks, ranger") = true
      \/ PyStr.contains "thanks" (PyStr.lower "Thanks, ranger") = true).
Proof.
  split; [reflexivity |].
  apply (deescalation_needs_sorry_or_thanks "Thanks, ranger" "angry").
  reflexivity.
Defined.

Lemma update_mood_known (text m : string) :
  In m MOODS -> In (fst (update_mood text m)) MOODS.
Proof.
  intros Hm. unfold update_mood.
  destruct (PyStr.any_in INSULT_KEYWORDS (PyStr.lower text));
    [cbn; tauto |].
  destruct (PyStr.any_in HELP_KEYWORDS (PyStr.lower text)
            || PyStr.endswith (PyStr.lower text) "?"); [cbn; tauto |].
  destruct (String.eqb m "angry"
            && PyStr.any_in DEESCALATE_WORDS (PyStr.lower text));
    [cbn; tauto | exact Hm].
Qed.

Lemma mood_after_known (texts : list string) (m : string) :
  In m MOODS -> In (mood_after texts m) MOODS.
Proof.
  revert m. induction texts as [| t texts IH]; intros m Hm; [exact Hm |].
  apply IH, update_mood_known, Hm.
Qed.

End MoodEngineMore.

(** ** The chat request *)

Section ChatRequest.

(** X3: the request has two turns without history and three with it; the
    first is the system turn and the last is the current message as a
    user turn. *)
Theorem build_messages_shape (npc_name mood : string) (history : list string)
    (current_text : string) :
  let messages := build_messages npc_name mood history current_text in
  length messages = (match history with [] => 2 | _ => 3 end)
  /\ role <$> head messages = Some "system"
  /\ last messages = Some {| role := "user"; content := current_text |}
  /\ Forall (fun m => role m = "user") (tail messages).
Proof.
  destruct history; cbv zeta; unfold build_messages;
    repeat split; repeat constructor.
Qed.

(** X4: the system turn names the NPC and the mood, and with a history the
    second turn holds every earlier message as a bullet. *)
Theorem build_messages_mentions (npc_name mood : string) (history : list string)
    (current_text : string) :
  let messages := build_messages npc_name mood history current_text in
  (exists prompt,
      messages !! 0 = Some {| role := "system"; content := prompt |}
      /\ PyStr.contains npc_name prompt = true
      /\ PyStr.contains mood prompt = true)
  /\ (forall h, In h history ->
        exists context,
          messages !! 1 = Some {| role := "user"; content := context |}
          /\ PyStr.contains ("- " +:+ h) context = true).
Proof.
  cbv zeta. split.
  - eexists. split; [destruct history; reflexivity |]. split.
    + apply (contains_middle npc_name "You are ").
    + apply (contains_skip mood "You are "), (contains_skip mood npc_name).
      apply (contains_middle mood ", a game NPC. Current mood: ").
  - intros h Hin. destruct history as [| h0 history]; [destruct Hin |].
    eexists. split; [reflexivity |].
    apply contains_skip, contains_skip, contains_join_lines.
    apply in_map_iff. exists h. auto.
Qed.

Lemma build_messages_mentions_witness :
  In "hello" ["hello"; "Where is the mill?"]
  /\ exists context,
       build_messages "Elya the Ranger" "friendly"
         ["hello"; "Where is the mill?"] "Thanks" !! 1
       = Some {| role := "user"; content := context |}
       /\ PyStr.contains "- hello" context = true.
Proof.
  assert (H : In "hello" ["hello"; "Where is the mill?"]) by (left; reflexivity).
  split; [exact H |].
  exact (proj2 (build_messages_mentions "Elya the Ranger" "friendly"
                  ["hello"; "Where is the mill?"] "Thanks") "hello" H).
Defined.

End ChatRequest.

(** ** Sessions *)

Section Sessions.

Context (client : remote_client) (model npc_name : string).

Lemma mood_after_snoc (texts : list string) (t m : string) :
  mood_after (texts ++ [t]) m = fst (update_mood t (mood_after texts m)).
Proof. unfold mood_after. rewrite fold_left_app. reflexivity. Qed.

Lemma loop_trace_moods (messages : list Message) :
  forall (ps : gmap Z PlayerState) (call : nat) (h : Z -> list string),
    (forall p, mood (session ps p) = mood_after (h p) "neutral") ->
    forall p,
      mood (session (fst (loop_trace client model npc_name messages ps call)) p)
      = mood_after (h p ++ texts_of p messages) "neutral".
Proof.
  induction messages as [| msg rest IH]; intros ps call h Hh p.
  - cbn [loop_trace fst]. rewrite (Hh p).
    unfold texts_of. rewrite filter_nil, fmap_nil, app_nil_r. reflexivity.
  - rewrite loop_trace_cons. cbn [fst].
    change (msg :: rest) with ([msg] ++ rest).
    rewrite texts_of_app, app_assoc.
    apply (IH _ _ (fun q => h q ++ texts_of q [msg])).
    intros q. rewrite process_message_spec. cbn [fst].
    rewrite texts_of_one. unfold session at 1.
    destruct (decide (player_id msg = q)) as [<- | Hne].
    + rewrite lookup_insert_eq. cbn [from_option id].
      unfold message_result. cbn [fst mood].
      rewrite (Hh (player_id msg)), mood_after_snoc. reflexivity.
    + rewrite lookup_insert_ne by exact Hne.
      rewrite app_nil_r. apply Hh.
Qed.

Lemma loop_sessions (messages : list Message) (p : Z) :
  session (fst (loop_trace client model npc_name messages ∅ 0)) p
  = {| mood := mood_after (texts_of p messages) "neutral";
       last_messages := last3 (texts_of p messages) |}.
Proof.
  pose proof (loop_windows client model npc_name messages p) as Hw.
  pose proof (loop_trace_moods messages ∅ 0 (fun _ => [])) as Hm.
  specialize (Hm (fun q => ltac:(unfold session; rewrite lookup_empty; reflexivity)) p).
  cbn [app] in Hm.
  destruct (session (fst (loop_trace client model npc_name messages ∅ 0)) p)
    as [m l]. cbn [mood last_messages] in Hw, Hm. subst. reflexivity.
Qed.

(** X5: the session of a player after the loop is a function of the texts
    that player sent, in processing order: the mood is the mood engine
    applied to them one after the other, from neutral. *)
Theorem session_from_own_texts (log_handle : bool) (messages : list Message)
    (w : world) :
  exists ps w',
    process_loop client model npc_name log_handle messages ∅ 0 w
      = (Returned ps, w')
    /\ forall p,
         session ps p
         = {| mood := mood_after (texts_of p messages) "neutral";
              last_messages := last3 (texts_of p messages) |}.
Proof.
  eexists _, _. split; [apply process_loop_run |].
  intros p. apply loop_sessions.
Qed.

(** X6: the mood of every session is neutral, friendly or angry. *)
Theorem session_mood_is_known (log_handle : bool) (messages : list Message)
    (w : world) :
  exists ps w',
    process_loop client model npc_name log_handle messages ∅ 0 w
      = (Returned ps, w')
    /\ forall p, In (mood (session ps p)) MOODS.
Proof.
  eexists _, _. split; [apply process_loop_run |].
  intros p. rewrite loop_sessions. cbn [mood].
  apply mood_after_known. left. reflexivity.
Qed.

Lemma loop_trace_dom (messages : list Message) :
  forall (ps : gmap Z PlayerState) (call : nat),
    dom (fst (loop_trace client model npc_name messages ps call))
    = dom ps ∪ list_to_set (player_id <$> messages).
Proof.
  induction messages as [| msg rest IH]; intros ps call.
  - cbn [loop_trace fst]. rewrite fmap_nil, list_to_set_nil.
    symmetry. apply union_empty_r_L.
  - rewrite loop_trace_cons. cbn [fst]. rewrite IH, process_message_spec.
    cbn [fst]. rewrite dom_insert_L, fmap_cons, list_to_set_cons.
    rewrite (union_comm_L {[player_id msg]} (dom ps)).
    rewrite union_assoc_L. reflexivity.
Qed.

(** X7: a session exists after the loop exactly for the players who sent a
    message. *)
Theorem sessions_exist_for_senders (log_handle : bool)
    (messages : list Message) (w : world) :
  exists ps w',
    process_loop client model npc_name log_handle messages ∅ 0 w
      = (Returned ps, w')
    /\ forall p, is_Some (ps !! p) <-> In p (player_id <$> messages).
Proof.
  eexists _, _. split; [apply process_loop_run |].
  intros p. rewrite <- elem_of_dom, loop_trace_dom, dom_empty_L.
  rewrite union_empty_l_L, elem_of_list_to_set. apply list_elem_of_In.
Qed.

End Sessions.

Lemma sessions_exist_for_senders_witness :
  exists ps w',
    process_loop None "gpt-3.5-turbo" "Elya the Ranger" false
      interleaved_batch ∅ 0 world_init = (Returned ps, w')
    /\ is_Some (ps !! 2%Z) /\ In 2%Z (player_id <$> interleaved_batch)
    /\ ps !! 3%Z = None.
Proof.
  destruct (sessions_exist_for_senders None "gpt-3.5-turbo" "Elya the Ranger"
              false interleaved_batch world_init) as (ps & w' & Hrun & Hdom).
  assert (H2 : In 2%Z (player_id <$> interleaved_batch)) by (left; reflexivity).
  exists ps, w'. split; [exact Hrun |].
  split; [exact (proj2 (Hdom 2%Z) H2) |]. split; [exact H2 |].
  destruct (ps !! 3%Z) eqn:H3; [| reflexivity].
  destruct (proj1 (Hdom 3%Z) (ex_intro _ _ H3)) as [H | [H | [H | []]]];
    discriminate H.
Defined.

(** X8: two runs of the loop, whatever their remote services, models, NPC
    names and other players, leave a player with the same session when
    that player sent the same texts in the same order in both. *)
Theorem session_independent_of_the_rest
    (client1 client2 : remote_client) (model1 model2 npc1 npc2 : string)
    (log1 log2 : bool) (messages1 messages2 : list Message) (w1 w2 : world)
    (p : Z) :
  texts_of p messages1 = texts_of p messages2 ->
  exists ps1 ps2 w1' w2',
    process_loop client1 model1 npc1 log1 messages1 ∅ 0 w1 = (Returned ps1, w1')
    /\ process_loop client2 model2 npc2 log2 messages2 ∅ 0 w2
       = (Returned ps2, w2')
    /\ session ps1 p = session ps2 p.
Proof.
  intros Htexts. eexists _, _, _, _.
  split; [apply process_loop_run |]. split; [apply process_loop_run |].
  rewrite !loop_sessions, Htexts. reflexivity.
Qed.

Lemma session_independent_of_the_rest_witness :
  texts_of 1 interleaved_batch
  = texts_of 1 [ {| player_id := 1; text := "hello"; timestamp := "t1" |};
                 {| player_id := 1; text := "I hate this"; timestamp := "t2" |} ]
  /\ exists ps1 ps2 w1' w2',
       process_loop None "gpt-3.5-turbo" "Elya the Ranger" false
         interleaved_batch ∅ 0 world_init = (Returned ps1, w1')
       /\ process_loop (Some (fun _ _ => Some "Hm.")) "gpt-4" "Bram" true
            [ {| player_id := 1; text := "hello"; timestamp := "t1" |};
              {| player_id := 1; text := "I hate this"; timestamp := "t2" |} ]
            ∅ 0 world_init = (Returned ps2, w2')
       /\ session ps1 1 = session ps2 1.
Proof.
  split; [reflexivity |].
  apply (session_independent_of_the_rest None (Some (fun _ _ => Some "Hm."))).
  reflexivity.
Defined.

(** ** The sinks and the fallback mode *)

Section Sinks.

Context (model npc_name : string).

(** X9: when the sort returns, the log file follows the console.  With
    an empty name no file is touched.  With a name whose file can be
    prepared, the file is opened anew and receives the entries of the
    run, the same ones in the same order as the console.  When the
    preparation raises, the run raises the same exception before the
    loop, with nothing printed and the file untouched; a name without a
    directory part always does so, with [FileNotFoundError]. *)
Theorem log_file_mirrors_console (client : remote_client)
    (fromisoformat : string -> option datetime)
    (messages sorted : list Message) (log_file : string) (w : world) :
  sort_messages fromisoformat messages = Returned sorted ->
  exists r w',
    process_messages fromisoformat client messages log_file model npc_name w
      = (r, w')
    /\ (forall e, log_failure w log_file = Some e -> r = Raised e /\ w' = w)
    /\ (log_failure w log_file = None ->
        exists ps entries,
          r = Returned ps
          /\ console w' = console w ++ entries
          /\ length entries = length messages
          /\ log_lines w'
             = if String.eqb log_file "" then log_lines w else Some entries)
    /\ (log_file <> "" -> dirname log_file = "" ->
        r = Raised FileNotFoundError /\ w' = w).
Proof.
  intros Hsort. rewrite process_messages_run, Hsort.
  assert (Hdir : log_file <> "" -> dirname log_file = "" ->
                 log_failure w log_file = Some FileNotFoundError).
  { intros Hne Hd. unfold log_failure.
    apply String.eqb_neq in Hne. rewrite Hne, Hd. reflexivity. }
  destruct (log_failure w log_file) as [e |].
  - eexists _, _. split; [reflexivity |]. split; [| split; [discriminate |]].
    + intros e' [= <-]. split; reflexivity.
    + intros Hne Hd. specialize (Hdir Hne Hd). injection Hdir as ->.
      split; reflexivity.
  - eexists _, _. split; [reflexivity |]. split; [discriminate |]. split.
    + intros _. eexists _, _. split; [reflexivity |].
      cbn [console log_lines]. split; [reflexivity |]. split; [| reflexivity].
      rewrite loop_trace_length.
      apply sort_messages_returned in Hsort as (Hp & _).
      rewrite Hp. reflexivity.
    + intros Hne Hd. specialize (Hdir Hne Hd). discriminate.
Qed.

Lemma loop_trace_fallback (messages : list Message) :
  forall (ps : gmap Z PlayerState) (call : nat),
    Forall fallback_entry (snd (loop_trace None model npc_name messages ps call)).
Proof.
  induction messages as [| msg rest IH]; intros ps call.
  - constructor.
  - rewrite loop_trace_cons. cbn [snd]. constructor; [| apply IH].
    rewrite process_message_spec. cbn [snd].
    split; [reflexivity |]. eexists _, _. repeat split; reflexivity.
Qed.

(** X10: without a remote service, in a run whose sort returns and
    whose log file can be prepared, every entry carries the tag
    "fallback", and its reply is the rule-based reply to the logged text
    in the logged mood. *)
Theorem fallback_mode_entries (fromisoformat : string -> option datetime)
    (messages sorted : list Message) (log_file : string) (w : world) :
  sort_messages fromisoformat messages = Returned sorted ->
  log_failure w log_file = None ->
  exists ps entries w',
    process_messages fromisoformat None messages log_file model npc_name w
      = (Returned ps, w')
    /\ console w' = console w ++ entries
    /\ length entries = length messages
    /\ Forall fallback_entry entries.
Proof.
  intros Hsort Hlog. eexists _, _, _.
  split; [rewrite process_messages_run, Hsort, Hlog; reflexivity |].
  cbn [console]. split; [reflexivity |]. split; [| apply loop_trace_fallback].
  rewrite loop_trace_length.
  apply sort_messages_returned in Hsort as (Hp & _). rewrite Hp. reflexivity.
Qed.

Lemma sort_messages_mixed (fromisoformat : string -> option datetime)
    (messages : list Message) :
  Forall (fun m => is_Some (instant_of fromisoformat m)) messages ->
  mixed_kinds fromisoformat messages ->
  sort_messages fromisoformat messages = Raised TypeError.
Proof.
  intros Hall Hmixed.
  destruct (sort_messages fromisoformat messages) as [sorted | e] eqn:Hsort.
  - apply sort_messages_returned in Hsort as (_ & _ & _ & Hno).
    destruct (Hno Hmixed).
  - destruct (sort_messages_raises _ _ _ Hsort) as [-> | ->]; [| reflexivity].
    apply sort_messages_value_error in Hsort as (m & Hin & Hnone).
    rewrite Forall_forall in Hall.
    apply list_elem_of_In, Hall in Hin. rewrite Hnone in Hin.
    destruct Hin; discriminate.
Qed.

(** X11: a batch whose timestamps all parse, some without an offset and some
    with one, makes the run raise [TypeError] in the sort: nothing is
    printed and the log file is not opened. *)
Theorem mixed_timestamps_abort (client : remote_client)
    (fromisoformat : string -> option datetime)
    (messages : list Message) (log_file : string) (w : world) :
  Forall (fun m => is_Some (instant_of fromisoformat m)) messages ->
  mixed_kinds fromisoformat messages ->
  process_messages fromisoformat client messages log_file model npc_name w
  = (Raised TypeError, w).
Proof.
  intros Hall Hmixed.
  rewrite process_messages_run, (sort_messages_mixed _ _ Hall Hmixed).
  reflexivity.
Qed.

End Sinks.

Lemma log_file_mirrors_console_witness :
  sort_messages fromisoformat_seconds interleaved_batch
  = Returned
      [ {| player_id := 1; text := "hello";
           timestamp := "2024-03-01T10:00:00Z" |};
        {| player_id := 2; text := "Where is the quest?";
           timestamp := "2024-03-01T10:05:00+00:00" |};
        {| player_id := 1; text := "I hate this";
           timestamp := "2024-03-01T12:05:00+02:00" |} ]
  /\ log_failure world_init "logs/chat_log.jsonl" = None
  /\ exists r w' ps entries,
       process_messages fromisoformat_seconds None interleaved_batch
         "logs/chat_log.jsonl" "gpt-3.5-turbo" "Elya the Ranger" world_init
       = (r, w')
       /\ r = Returned ps
       /\ console w' = entries /\ log_lines w' = Some entries.
Proof.
  split; [reflexivity |]. split; [reflexivity |].
  destruct (log_file_mirrors_console "gpt-3.5-turbo" "Elya the Ranger" None
              fromisoformat_seconds interleaved_batch _ "logs/chat_log.jsonl"
              world_init interleaved_batch_sorted)
    as (r & w' & Hrun & _ & Hok & _).
  destruct (Hok eq_refl) as (ps & entries & Hr & Hconsole & _ & Hlog).
  exists r, w', ps, entries. auto.
Defined.

Lemma fallback_mode_entries_witness :
  sort_messages fromisoformat_seconds interleaved_batch
  = Returned
      [ {| player_id := 1; text := "hello";
           timestamp := "2024-03-01T10:00:00Z" |};
        {| player_id := 2; text := "Where is the quest?";
           timestamp := "2024-03-01T10:05:00+00:00" |};
        {| player_id := 1; text := "I hate this";
           timestamp := "2024-03-01T12:05:00+02:00" |} ]
  /\ log_failure world_init "logs/chat_log.jsonl" = None
  /\ exists ps entries w',
       process_messages fromisoformat_seconds None interleaved_batch
         "logs/chat_log.jsonl" "gpt-3.5-turbo" "Elya the Ranger" world_init
       = (Returned ps, w')
       /\ console w' = entries
       /\ length entries = 3
       /\ Forall fallback_entry entries.
Proof.
  split; [reflexivity |]. split; [reflexivity |].
  exact (fallback_mode_entries "gpt-3.5-turbo" "Elya the Ranger"
           fromisoformat_seconds interleaved_batch _ "logs/chat_log.jsonl"
           world_init interleaved_batch_sorted eq_refl).
Defined.

Lemma mixed_timestamps_abort_witness :
  Forall (fun m => is_Some (instant_of fromisoformat_seconds m)) mixed_batch
  /\ mixed_kinds fromisoformat_seconds mixed_batch
  /\ process_messages fromisoformat_seconds None mixed_batch
       "logs/chat_log.jsonl" "gpt-3.5-turbo" "Elya the Ranger" world_init
     = (Raised TypeError, world_init).
Proof.
  assert (Hall : Forall (fun m => is_Some (instant_of fromisoformat_seconds m))
                   mixed_batch).
  { repeat (constructor; [eexists; reflexivity |]). constructor. }
  assert (Hmixed : mixed_kinds fromisoformat_seconds mixed_batch).
  { eexists _, _, _, _.
    split; [left; reflexivity |]. split; [right; left; reflexivity |].
    split; reflexivity. }
  split; [exact Hall |]. split; [exact Hmixed |].
  exact (mixed_timestamps_abort "gpt-3.5-turbo" "Elya the Ranger" None
           fromisoformat_seconds mixed_batch "logs/chat_log.jsonl" world_init
           Hall Hmixed).
Defined.

(** ** Batches already in order *)

Section SortedBatches.

Lemma sort_keyed_sorted (l : list (datetime * Message)) :
  StronglySorted keyed_le l -> sort_keyed l = Some l.
Proof.
  induction 1 as [| x l Hl IH Hx]; [reflexivity |].
  cbn [sort_keyed]. rewrite IH.
  destruct l as [| y l]; [reflexivity |].
  apply Forall_cons in Hx as [Hxy _].
  cbn [insert_keyed]. unfold keyed_le, datetime_le in Hxy. rewrite Hxy.
  reflexivity.
Qed.

Lemma sort_keys_sorted (fromisoformat : string -> option datetime)
    (messages : list Message) :
  Forall (fun m => is_Some (instant_of fromisoformat m)) messages ->
  StronglySorted (instant_le fromisoformat) messages ->
  exists l, sort_keys fromisoformat messages = Some l
            /\ snd <$> l = messages
            /\ StronglySorted keyed_le l.
Proof.
  intros Hall Hs. revert Hall.
  induction Hs as [| m messages Hs IH Hm]; intros Hall.
  - exists []. repeat split. constructor.
  - apply Forall_cons in Hall as [[k Hk] Hall].
    destruct (IH Hall) as (l & Hkeys & Hsnd & Hl).
    exists ((k, m) :: l). cbn [sort_keys].
    fold (instant_of fromisoformat m). rewrite Hk, Hkeys.
    split; [reflexivity |]. split; [rewrite fmap_cons, Hsnd; reflexivity |].
    constructor; [exact Hl |].
    destruct (sort_keys_spec _ _ _ Hkeys) as [_ Hinst].
    rewrite Forall_forall in Hinst. rewrite Forall_forall in Hm.
    rewrite Forall_forall.
    intros x Hx. pose proof (Hinst x Hx) as Hix.
    assert (Hin : snd x ∈ messages).
    { rewrite <- Hsnd. apply list_elem_of_fmap. exists x. auto. }
    specialize (Hm _ Hin). unfold instant_le in Hm.
    rewrite Hk, Hix in Hm. exact Hm.
Qed.

Lemma sort_messages_of_sorted (fromisoformat : string -> option datetime)
    (messages : list Message) :
  Forall (fun m => is_Some (instant_of fromisoformat m)) messages ->
  StronglySorted (instant_le fromisoformat) messages ->
  sort_messages fromisoformat messages = Returned messages.
Proof.
  intros Hall Hs.
  destruct (sort_keys_sorted _ _ Hall Hs) as (l & Hkeys & Hsnd & Hl).
  unfold sort_messages. rewrite Hkeys, (sort_keyed_sorted _ Hl), Hsnd.
  reflexivity.
Qed.

Lemma sort_messages_parsed (fromisoformat : string -> option datetime)
    (messages sorted : list Message) :
  sort_messages fromisoformat messages = Returned sorted ->
  Forall (fun m => is_Some (instant_of fromisoformat m)) messages.
Proof.
  unfold sort_messages. intros Hsort.
  destruct (sort_keys fromisoformat messages) as [l |] eqn:Hkeys;
    [| discriminate].
  destruct (sort_keys_spec _ _ _ Hkeys) as [Hsnd Hinst].
  rewrite <- Hsnd, Forall_fmap.
  eapply Forall_impl; [exact Hinst |].
  intros x Hx. unfold compose. rewrite Hx. eexists. reflexivity.
Qed.

(** X12: a batch whose timestamps parse and already stand in
    non-decreasing order is processed in the order of the input: the
    sort returns it unchanged, and when the log file, if one is asked
    for, can be prepared, the console receives one entry per message in
    input order. *)
Theorem sorted_batch_processed_in_input_order
    (fromisoformat : string -> option datetime) (client : remote_client)
    (messages : list Message) (log_file model npc_name : string) (w : world) :
  Forall (fun m => is_Some (instant_of fromisoformat m)) messages ->
  StronglySorted (instant_le fromisoformat) messages ->
  sort_messages fromisoformat messages = Returned messages
  /\ (log_failure w log_file = None ->
      exists ps entries w',
        process_messages fromisoformat client messages log_file model npc_name w
          = (Returned ps, w')
        /\ console w' = console w ++ entries
        /\ entry_message <$> entries = Some <$> messages).
Proof.
  intros Hall Hs.
  pose proof (sort_messages_of_sorted _ _ Hall Hs) as Hsort.
  split; [exact Hsort |]. intros Hlog. eexists _, _, _.
  split; [rewrite process_messages_run, Hsort, Hlog; reflexivity |].
  split; [reflexivity | apply loop_trace_messages].
Qed.

(** X13: sorting is idempotent: what the sort returns, the sort returns
    unchanged. *)
Theorem sort_messages_idempotent (fromisoformat : string -> option datetime)
    (messages sorted : list Message) :
  sort_messages fromisoformat messages = Returned sorted ->
  sort_messages fromisoformat sorted = Returned sorted.
Proof.
  intros Hsort.
  destruct (sort_messages_returned _ _ _ Hsort) as (Hp & Hs & _).
  apply sort_messages_of_sorted; [| exact Hs].
  rewrite Hp. eapply sort_messages_parsed, Hsort.
Qed.

End SortedBatches.

Lemma sort_messages_idempotent_witness :
  sort_messages fromisoformat_seconds interleaved_batch
  = Returned
      [ {| player_id := 1; text := "hello";
           timestamp := "2024-03-01T10:00:00Z" |};
        {| player_id := 2; text := "Where is the quest?";
           timestamp := "2024-03-01T10:05:00+00:00" |};
        {| player_id := 1; text := "I hate this";
           timestamp := "2024-03-01T12:05:00+02:00" |} ]
  /\ sort_messages fromisoformat_seconds
       [ {| player_id := 1; text := "hello";
            timestamp := "2024-03-01T10:00:00Z" |};
         {| player_id := 2; text := "Where is the quest?";
            timestamp := "2024-03-01T10:05:00+00:00" |};
         {| player_id := 1; text := "I hate this";
            timestamp := "2024-03-01T12:05:00+02:00" |} ]
     = Returned
         [ {| player_id := 1; text := "hello";
              timestamp := "2024-03-01T10:00:00Z" |};
           {| player_id := 2; text := "Where is the quest?";
              timestamp := "2024-03-01T10:05:00+00:00" |};
           {| player_id := 1; text := "I hate this";
              timestamp := "2024-03-01T12:05:00+02:00" |} ].
Proof.
  split; [reflexivity |].
  exact (sort_messages_idempotent fromisoformat_seconds interleaved_batch _
           interleaved_batch_sorted).
Defined.

Lemma sorted_batch_processed_in_input_order_witness :
  Forall (fun m => is_Some (instant_of fromisoformat_seconds m)) window_batch
  /\ StronglySorted (instant_le fromisoformat_seconds) window_batch
  /\ log_failure world_init "logs/chat_log.jsonl" = None
  /\ sort_messages fromisoformat_seconds window_batch = Returned window_batch
  /\ exists ps entries w',
       process_messages fromisoformat_seconds None window_batch
         "logs/chat_log.jsonl" "gpt-3.5-turbo" "Elya the Ranger" world_init
       = (Returned ps, w')
       /\ console w' = console world_init ++ entries
       /\ entry_message <$> entries = Some <$> window_batch.
Proof.
  assert (Hall : Forall (fun m => is_Some (instant_of fromisoformat_seconds m))
                   window_batch).
  { repeat (constructor; [eexists; reflexivity |]). constructor. }
  assert (Hs : StronglySorted (instant_le fromisoformat_seconds) window_batch).
  { repeat (constructor; [| repeat (constructor; [reflexivity |]); constructor]).
    constructor. }
  split; [exact Hall |]. split; [exact Hs |]. split; [reflexivity |].
  destruct (sorted_batch_processed_in_input_order fromisoformat_seconds None
              window_batch "logs/chat_log.jsonl" "gpt-3.5-turbo"
              "Elya the Ranger" world_init Hall Hs) as [Hsort Hrun].
  split; [exact Hsort | exact (Hrun eq_refl)].
Defined.

(** ** Timestamp normalization, further *)

Section TimestampsMore.

Lemma contains_Z_cons (c : ascii) (s : string) :
  PyStr.contains "Z" (String c s) = Ascii.eqb c "Z" || PyStr.contains "Z" s.
Proof.
  rewrite contains_unfold. cbn [String.prefix].
  destruct (ascii_dec "Z" c) as [<- | Hne].
  - destruct s; reflexivity.
  - apply not_eq_sym, Ascii.eqb_neq in Hne. rewrite Hne. reflexivity.
Qed.

Lemma replace_Z_no_Z (s : string) :
  PyStr.contains "Z" (PyStr.replace_char "Z" "+00:00" s) = false.
Proof.
  induction s as [| c s IH]; [reflexivity |].
  rewrite replace_Z_unfold. destruct (Ascii.eqb c "Z") eqn:Hc.
  - rewrite !contains_Z_cons, IH. reflexivity.
  - rewrite contains_Z_cons, Hc, IH. reflexivity.
Qed.

Lemma replace_Z_id (s : string) :
  PyStr.contains "Z" s = false -> PyStr.replace_char "Z" "+00:00" s = s.
Proof.
  induction s as [| c s IH]; [reflexivity |].
  rewrite contains_Z_cons, replace_Z_unfold. intros H.
  apply orb_false_iff in H as [Hc Hs]. rewrite Hc, (IH Hs). reflexivity.
Qed.

Lemma replace_Z_head (s : string) :
  PyStr.head_is_space s = false ->
  PyStr.head_is_space (PyStr.replace_char "Z" "+00:00" s) = false.
Proof.
  destruct s as [| c s]; [reflexivity |].
  rewrite replace_Z_unfold. destruct (Ascii.eqb c "Z"); [reflexivity | trivial].
Qed.

Lemma replace_Z_last (s : string) :
  PyStr.last_is_space s = false ->
  PyStr.last_is_space (PyStr.replace_char "Z" "+00:00" s) = false.
Proof.
  induction s as [| c s IH]; [reflexivity |].
  intros H. rewrite replace_Z_unfold.
  destruct s as [| d t].
  - destruct (Ascii.eqb c "Z"); [reflexivity | exact H].
  - specialize (IH H). rewrite replace_Z_unfold in IH |- *.
    destruct (Ascii.eqb c "Z"), (Ascii.eqb d "Z"); exact IH.
Qed.

Lemma lstrip_fixed (s : string) :
  PyStr.head_is_space s = false -> PyStr.lstrip s = s.
Proof.
  destruct s as [| c s]; [reflexivity |].
  cbn [PyStr.head_is_space PyStr.lstrip]. intros ->. reflexivity.
Qed.

Lemma rstrip_fixed (s : string) :
  PyStr.last_is_space s = false -> PyStr.rstrip s = s.
Proof.
  induction s as [| c s IH]; [reflexivity |].
  destruct s as [| d t].
  - cbn [PyStr.last_is_space PyStr.rstrip]. intros ->. reflexivity.
  - intros H. change (PyStr.last_is_space (String d t) = false) in H.
    change (PyStr.rstrip (String c (String d t)))
      with (match PyStr.rstrip (String d t) with
            | EmptyString =>
                if PyStr.is_space c then EmptyString else String c EmptyString
            | r => String c r
            end).
    rewrite (IH H). reflexivity.
Qed.

Lemma strip_fixed (s : string) :
  PyStr.head_is_space s = false -> PyStr.last_is_space s = false ->
  PyStr.strip s = s.
Proof.
  intros Hh Hl. unfold PyStr.strip.
  rewrite (lstrip_fixed _ Hh). apply rstrip_fixed, Hl.
Qed.

(** X14: the string handed to the parser holds no [Z], and normalizing it
    again changes nothing: a timestamp and its normalized form parse to
    the same result. *)
Theorem normalize_timestamp_idempotent
    (fromisoformat : string -> option datetime) (ts : string) :
  PyStr.contains "Z" (normalize_timestamp ts) = false
  /\ normalize_timestamp (normalize_timestamp ts) = normalize_timestamp ts
  /\ parse_timestamp fromisoformat (normalize_timestamp ts)
     = parse_timestamp fromisoformat ts.
Proof.
  assert (Hidem : normalize_timestamp (normalize_timestamp ts)
                  = normalize_timestamp ts).
  { unfold normalize_timestamp.
    destruct (strip_spec ts) as (l & r & _ & _ & _ & Hh & Hl).
    rewrite strip_fixed by (apply replace_Z_head, Hh || apply replace_Z_last, Hl).
    apply replace_Z_id, replace_Z_no_Z. }
  split; [apply replace_Z_no_Z |]. split; [exact Hidem |].
  unfold parse_timestamp. rewrite Hidem. reflexivity.
Qed.

Lemma lstrip_all_space (l s : string) :
  PyStr.all_space l = true -> PyStr.lstrip (l +:+ s) = PyStr.lstrip s.
Proof.
  induction l as [| c l IH]; [reflexivity |].
  cbn [PyStr.all_space]. intros H. apply andb_prop in H as [Hc Hl].
  rewrite append_cons. cbn [PyStr.lstrip]. rewrite Hc. apply IH, Hl.
Qed.

Lemma rstrip_all_space (r : string) :
  PyStr.all_space r = true -> PyStr.rstrip r = "".
Proof.
  induction r as [| c r IH]; [reflexivity |].
  cbn [PyStr.all_space]. intros H. apply andb_prop in H as [Hc Hr].
  cbn [PyStr.rstrip]. rewrite (IH Hr), Hc. reflexivity.
Qed.

Lemma rstrip_app_space (s r : string) :
  PyStr.all_space r = true -> PyStr.rstrip (s +:+ r) = PyStr.rstrip s.
Proof.
  intros Hr. induction s as [| c s IH]; [apply rstrip_all_space, Hr |].
  rewrite append_cons. cbn [PyStr.rstrip]. rewrite IH. reflexivity.
Qed.

Lemma strip_app_space (s r : string) :
  PyStr.all_space r = true -> PyStr.strip (s +:+ r) = PyStr.strip s.
Proof.
  intros Hr. unfold PyStr.strip. induction s as [| c s IH].
  - rewrite append_empty_l. rewrite <- (append_empty_r r).
    rewrite (lstrip_all_space r "" Hr). reflexivity.
  - rewrite append_cons. cbn [PyStr.lstrip].
    destruct (PyStr.is_space c); [exact IH |].
    rewrite <- append_cons. apply rstrip_app_space, Hr.
Qed.

(** X15: whitespace around a timestamp does not change what it parses to. *)
Theorem parse_timestamp_ignores_whitespace
    (fromisoformat : string -> option datetime) (l ts r : string) :
  PyStr.all_space l = true -> PyStr.all_space r = true ->
  parse_timestamp fromisoformat (l +:+ ts +:+ r)
  = parse_timestamp fromisoformat ts.
Proof.
  intros Hl Hr. unfold parse_timestamp, normalize_timestamp.
  replace (PyStr.strip (l +:+ ts +:+ r)) with (PyStr.strip ts); [reflexivity |].
  unfold PyStr.strip at 2. rewrite (lstrip_all_space l _ Hl).
  symmetry. apply (strip_app_space ts r Hr).
Qed.

Lemma parse_timestamp_ignores_whitespace_witness :
  PyStr.all_space "  " = true /\ PyStr.all_space (" " +:+ nl) = true
  /\ parse_timestamp fromisoformat_seconds
       ("  " +:+ "2024-03-01T10:05:00Z" +:+ " " +:+ nl)
     = parse_timestamp fromisoformat_seconds "2024-03-01T10:05:00Z".
Proof.
  split; [reflexivity |]. split; [reflexivity |].
  apply (parse_timestamp_ignores_whitespace fromisoformat_seconds
           "  " "2024-03-01T10:05:00Z" (" " +:+ nl)); reflexivity.
Defined.

End TimestampsMore.

(** ** Remote replies *)

Section RemoteReplies.

(** X16: when the remote call succeeds, the reply is the content of the
    response without the whitespace around it: it neither starts nor
    ends with a whitespace character, and the rule-based generator has
    no part in it. *)
Theorem remote_reply_is_trimmed (client : remote_client) (call : nat)
    (npc_name mood : string) (history : list string) (text model : string)
    (response_content : string) :
  remote_response client call npc_name mood history text model
    = Some response_content ->
  let reply := fst (generate_reply client call npc_name mood history text model) in
  (exists l r, response_content = l +:+ reply +:+ r
               /\ PyStr.all_space l = true /\ PyStr.all_space r = true)
  /\ PyStr.head_is_space reply = false
  /\ PyStr.last_is_space reply = false.
Proof.
  intros Hremote. cbv zeta. rewrite generate_reply_cases, Hremote. cbn [fst].
  destruct (strip_spec response_content) as (l & r & Heq & Hl & Hr & Hh & Hla).
  split; [exists l, r; auto | auto].
Qed.

Lemma remote_reply_is_trimmed_witness :
  remote_response (Some (fun _ _ => Some " Take the east road. ")) 0
    "Elya the Ranger" "neutral" [] "hello" "gpt-3.5-turbo"
  = Some " Take the east road. "
  /\ PyStr.head_is_space
       (fst (generate_reply (Some (fun _ _ => Some " Take the east road. ")) 0
               "Elya the Ranger" "neutral" [] "hello" "gpt-3.5-turbo")) = false.
Proof.
  split; [reflexivity |].
  exact (proj1 (proj2 (remote_reply_is_trimmed
                         (Some (fun _ _ => Some " Take the east road. ")) 0
                         "Elya the Ranger" "neutral" [] "hello" "gpt-3.5-turbo"
                         " Take the east road. " eq_refl))).
Defined.

End RemoteReplies.
